(** * firepy.app.client: the [RemoteClient] HTTP wrapper

    A shallow embedding of [src/firepy/app/client.py].  The module is
    integration glue: every method builds a URL, issues blocking HTTP
    calls through [requests], and decodes the answer with [response.json()],
    [pandas.read_json] or [dill.loads].

    Modelling choices.
    - Python statements are computations in a state monad over [World]
      with three ways of finishing: falling through ([Normal]), executing
      [return] ([Return]) and raising ([Raise]).
    - [World] holds the client object (its three attributes), an event
      trace (HTTP exchanges, decoder calls, log records, console prompts)
      and the pending console input.
    - Everything outside the repository (the server behind [requests],
      [response.json()], [pandas], [dill], the file system, [pformat],
      [json.dumps]) is a field of [Env]; the methods are parametric in it.
    - Python dicts used as maps ([params], [payload], [success]) are
      [gmap string _]. *)

From Stdlib Require Import Ascii String.
From stdpp Require Import base strings list gmap pretty.

Open Scope string_scope.
Open Scope Z_scope.

(** ** Python values *)

(** Plain data: what [json] decodes to and encodes from.  A Python float is
    kept as mantissa and binary exponent; no arithmetic is done on it. *)
#[local] Unset Elimination Schemes.
Inductive json : Type :=
| JNull
| JBool (b : bool)
| JInt (z : Z)
| JFloat (m e : Z)
| JStr (s : string)
| JList (l : list json)
| JDict (d : list (string * json)).
#[local] Set Elimination Schemes.

(** Values that cross the client's interface.  Objects ([Building], [IDF],
    [DataFrame], [Parameter] containers, ...) are opaque: a class name and
    an identity. *)
Inductive pyval : Type :=
| PJson (j : json)
| PBytes (b : string)
| PObject (cls : string) (oid : positive).

Definition PNone : pyval := PJson JNull.
Definition PStr (s : string) : pyval := PJson (JStr s).

(** [None if x is None else str]: optional string arguments as sent in
    [params]. *)
Definition opt_str (o : option string) : json :=
  match o with Some s => JStr s | None => JNull end.

(** ** Exceptions *)

Inductive exn : Type :=
| Exception
| ValueError
| JSONDecodeError        (* json.JSONDecodeError *)
| UnicodeDecodeError
| PickleError
| UnpicklingError        (* dill.UnpicklingError is pickle.UnpicklingError *)
| EOFError
| AttributeError
| TypeError
| ImportError
| IndexError
| OSError
| FileNotFoundError
| RequestsConnectionError (* requests.exceptions.ConnectionError *)
| RequestsTimeout.

Global Instance exn_eq_dec : EqDecision exn.
Proof. solve_decision. Defined.

(** Direct base class. *)
Definition base (e : exn) : option exn :=
  match e with
  | Exception => None
  | JSONDecodeError | UnicodeDecodeError => Some ValueError
  | UnpicklingError => Some PickleError
  | FileNotFoundError | RequestsConnectionError | RequestsTimeout => Some OSError
  | _ => Some Exception
  end.

Fixpoint issubclass_fuel (n : nat) (e cls : exn) : bool :=
  if decide (e = cls) then true
  else match n with
       | O => false
       | S n' => match base e with
                 | Some b => issubclass_fuel n' b cls
                 | None => false
                 end
       end.

(** [issubclass(e, cls)]; the hierarchy above has depth 3. *)
Definition issubclass (e cls : exn) : bool := issubclass_fuel 3 e cls.

(** ** HTTP *)

Inductive http_method : Type := GET | POST.

(** The arguments of one [requests.get] / [requests.post] call. *)
Record Request : Type := mkRequest {
  req_method : http_method;
  req_url : string;
  req_params : option (gmap string json);
  req_data : option pyval
}.

Record Response : Type := mkResponse {
  text : string;     (* response.text *)
  content : string   (* response.content, the raw bytes *)
}.

(** What a call into [requests] produces: an exception or a response. *)
Definition reply : Type := exn + Response.

(** ** The environment: external collaborators *)

Record Env : Type := mkEnv {
  (** transport and server: the answer to a request given the earlier
      exchanges *)
  respond : list (Request * reply) → Request → reply;
  (** [response.json()] *)
  response_json : Response → exn + json;
  (** [pd.read_json(_, orient='split')] *)
  pd_read_json : json → exn + pyval;
  (** [dill.loads] *)
  dill_loads : string → exn + pyval;
  (** [[p for p in d.values()]] on an unpickled object *)
  dict_values : pyval → exn + pyval;
  (** [dill.dumps] *)
  dill_dumps : pyval → exn + string;
  (** [with path.open('r') as f: f.read()] *)
  read_text : string → exn + string;
  (** [pd.read_csv(str(path), header=[0,1], index_col=[0,1])] *)
  pd_read_csv : string → exn + pyval;
  (** [idf.idfstr()] *)
  idfstr : pyval → exn + string;
  (** [json.dumps] on a JSON document *)
  json_dumps : json → string;
  (** [pprint.pformat] on a dict of strings *)
  pformat : gmap string string → string
}.

(** ** The client object and the world *)

Record RemoteClient : Type := mkRemoteClient {
  host : string;
  port : Z;
  url : string
}.

Inductive level : Type := DEBUG | INFO | WARNING.

Inductive decoder_call : Type :=
| CallResponseJson (r : Response)
| CallReadJson (j : json)
| CallDillLoads (b : string).

Inductive event : Type :=
| EvRequest (rq : Request) (rp : reply)
| EvDecode (d : decoder_call)
| EvLog (lv : level) (msg : string)
| EvInput (prompt : string).

Record World : Type := mkWorld {
  self : RemoteClient;
  events : list event;
  stdin : list string
}.

Definition emit (ev : event) (w : World) : World :=
  mkWorld (self w) (events w ++ [ev]) (stdin w).

(** The HTTP exchanges of a trace, oldest first. *)
Definition exchanges (evs : list event) : list (Request * reply) :=
  omap (λ ev, match ev with EvRequest rq rp => Some (rq, rp) | _ => None end) evs.

Definition decoder_calls (evs : list event) : list decoder_call :=
  omap (λ ev, match ev with EvDecode d => Some d | _ => None end) evs.

(** ** Statements *)

Inductive result (A : Type) : Type :=
| Normal (a : A)      (* fell through to the next statement *)
| Return (v : pyval)  (* executed [return v] *)
| Raise (e : exn).    (* an exception is propagating *)
Arguments Normal {A} a.
Arguments Return {A} v.
Arguments Raise {A} e.

Definition M (A : Type) : Type := World → result A * World.

Global Instance M_ret : MRet M := λ A a w, (Normal a, w).

Global Instance M_bind : MBind M := λ A B f m w,
  match m w with
  | (Normal a, w') => f a w'
  | (Return v, w') => (Return v, w')
  | (Raise e, w') => (Raise e, w')
  end.

Definition return_ {A} (v : pyval) : M A := λ w, (Return v, w).
Definition raise {A} (e : exn) : M A := λ w, (Raise e, w).

(** Lift the outcome of an external call. *)
Definition lift {A} (r : exn + A) : M A :=
  match r with inl e => raise e | inr a => mret a end.

(** [try: body except cls: handler] *)
Definition try_except {A} (body : M A) (cls : exn) (handler : M A) : M A := λ w,
  match body w with
  | (Raise e, w') => if issubclass e cls then handler w' else (Raise e, w')
  | r => r
  end.

(** What a call of a Python function gives back. *)
Inductive outcome : Type :=
| Returned (v : pyval)
| Raised (e : exn).

(** [def f(...): body]: falling off the end returns [None]. *)
Definition def (body : M ()) : World → outcome * World := λ w,
  match body w with
  | (Normal _, w') => (Returned PNone, w')
  | (Return v, w') => (Returned v, w')
  | (Raise e, w') => (Raised e, w')
  end.

(** ** Primitive effects *)

Section Client.
Context (E : Env).

(** [self.url] *)
Definition self_url : M string := λ w, (Normal (url (self w)), w).

(** One blocking call into [requests]: the exchange is recorded whether it
    yields a response or raises. *)
Definition requests_call (rq : Request) : M Response := λ w,
  let rp := respond E (exchanges (events w)) rq in
  lift rp (emit (EvRequest rq rp) w).

Definition requests_get (url : string) (params : option (gmap string json)) : M Response :=
  requests_call (mkRequest GET url params None).

Definition requests_post (url : string) (params : option (gmap string json))
    (data : option pyval) : M Response :=
  requests_call (mkRequest POST url params data).

(** [response.json()] *)
Definition json_ (response : Response) : M json := λ w,
  lift (response_json E response) (emit (EvDecode (CallResponseJson response)) w).

(** [pd.read_json(j, orient='split')] *)
Definition read_json (j : json) : M pyval := λ w,
  lift (pd_read_json E j) (emit (EvDecode (CallReadJson j)) w).

(** [dill.loads(b)] *)
Definition loads (b : string) : M pyval := λ w,
  lift (dill_loads E b) (emit (EvDecode (CallDillLoads b)) w).

Definition logger (lv : level) (msg : string) : M () := λ w,
  (Normal (), emit (EvLog lv msg) w).

(** [input(prompt)]: reads one pending line; [EOFError] when there is none. *)
Definition input (prompt : string) : M string := λ w,
  match stdin w with
  | [] => (Raise EOFError, emit (EvInput prompt) w)
  | line :: rest => (Normal line, mkWorld (self w) (events w ++ [EvInput prompt]) rest)
  end.

(** ** String helpers *)

Definition CR : Ascii.ascii := "013"%char.
Definition LF : Ascii.ascii := "010"%char.

(** [s.replace('\r\n', '\n')] *)
Fixpoint replace_crlf (s : string) : string :=
  match s with
  | "" => ""
  | String c rest =>
      match rest with
      | String c' rest' =>
          if decide (c = CR ∧ c' = LF) then String LF (replace_crlf rest')
          else String c (replace_crlf rest)
      | "" => String c ""
      end
  end.

(** [s.startswith(p)] *)
Definition startswith (s p : string) : bool := String.prefix p s.

(** ** [class RemoteClient] *)

(** [__init__]: [self.url = '{host}:{port}'.format(host=self.host, port=self.port)] *)
Definition __init__ (host : string) (port : Z) : RemoteClient :=
  mkRemoteClient host port (host +:+ ":" +:+ pretty port).

Definition setup (name : string)
    (epw weather_data : option string)
    (idf model parameters lca_calculation cost_calculation : option pyval)
    (energy_calculation : option string)
    (init_db : bool) : M () :=
  base_url ← self_url;
  let url := base_url +:+ "/setup" in
  u ← self_url;
  logger INFO ("Setting up calculation: " +:+ name +:+ " at: " +:+ u);;
  let success : gmap string string := ∅ in
  success ← match epw with
    | Some epw =>
        logger DEBUG "Setting up EPW on server";;
        epw_text ← lift (read_text E epw);
        (* change windows type newline characters to unix type *)
        let epw_text := replace_crlf epw_text in
        response ← requests_post url
          (Some {[ "name" := JStr name; "type" := JStr "epw" ]}) (Some (PStr epw_text));
        logger DEBUG ("Response from server: " +:+ text response);;
        if negb (startswith (text response) "OK") then return_ (PStr (text response))
        else mret (<["epw" := text response]> success)
    | None => mret success
    end;
  success ← match weather_data with
    | Some weather_data =>
        logger DEBUG "Setting up weather data on server";;
        weather ← lift (pd_read_csv E weather_data);
        content ← lift (dill_dumps E weather);
        response ← requests_post url
          (Some {[ "name" := JStr name; "type" := JStr "weather_data" ]}) (Some (PBytes content));
        logger DEBUG ("Response from server: " +:+ text response);;
        if negb (startswith (text response) "OK") then return_ (PStr (text response))
        else mret (<["weather" := text response]> success)
    | None => mret success
    end;
  success ← match idf with
    | Some idf =>
        logger DEBUG "Setting up IDF on server";;
        idf_text ← lift (idfstr E idf);
        response ← requests_post url
          (Some {[ "name" := JStr name; "type" := JStr "idf" ]}) (Some (PStr idf_text));
        logger DEBUG ("Response from server: " +:+ text response);;
        if negb (startswith (text response) "OK") then return_ (PStr (text response))
        else mret (<["idf" := text response]> success)
    | None => mret success
    end;
  success ← match model with
    | Some model =>
        logger DEBUG "Setting up model on server";;
        model_dump ← lift (dill_dumps E model);
        response ← requests_post url
          (Some {[ "name" := JStr name; "type" := JStr "model" ]}) (Some (PBytes model_dump));
        logger DEBUG ("Response from server: " +:+ text response);;
        if negb (startswith (text response) "OK") then return_ (PStr (text response))
        else mret (<["model" := text response]> success)
    | None => mret success
    end;
  success ← match parameters with
    | Some parameters =>
        logger DEBUG "Setting up parameters on server";;
        param_dump ← lift (dill_dumps E parameters);
        response ← requests_post url
          (Some {[ "name" := JStr name; "type" := JStr "parameters" ]}) (Some (PBytes param_dump));
        logger DEBUG ("Response from server: " +:+ text response);;
        if negb (startswith (text response) "OK") then return_ (PStr (text response))
        else mret (<["parameters" := text response]> success)
    | None => mret success
    end;
  success ← match lca_calculation with
    | Some lca_calculation =>
        logger DEBUG "Setting up LCA Calculation on server";;
        lca_dump ← lift (dill_dumps E lca_calculation);
        response ← requests_post url
          (Some {[ "name" := JStr name; "type" := JStr "lca_calculation" ]}) (Some (PBytes lca_dump));
        logger DEBUG ("Response from server: " +:+ text response);;
        if negb (startswith (text response) "OK") then return_ (PStr (text response))
        else mret (<["LCA Calculation" := text response]> success)
    | None => mret success
    end;
  success ← match cost_calculation with
    | Some cost_calculation =>
        logger DEBUG "Setting up Cost Calculation on server";;
        cost_dump ← lift (dill_dumps E cost_calculation);
        response ← requests_post url
          (Some {[ "name" := JStr name; "type" := JStr "cost_calculation" ]}) (Some (PBytes cost_dump));
        logger DEBUG ("Response from server: " +:+ text response);;
        if negb (startswith (text response) "OK") then return_ (PStr (text response))
        else mret (<["Cost Calculation" := text response]> success)
    | None => mret success
    end;
  success ←
    if init_db then
      logger DEBUG "Initiating result database on server";;
      response ← requests_post url
        (Some {[ "name" := JStr name; "type" := JStr "database" ]}) None;
      logger DEBUG ("Response from server: " +:+ text response);;
      if negb (startswith (text response) "OK") then return_ (PStr (text response))
      else mret (<["Database" := text response]> success)
    else mret success;
  success ←
    (* [if energy_calculation:] holds for a non-empty string only *)
    match energy_calculation with
    | Some energy_calculation =>
        if negb (String.eqb energy_calculation "") then
          if negb (bool_decide (energy_calculation ∈ ["simulation"; "steady_state"])) then
            return_ (PStr "Energy calculation type can be one of the following: simulation / steady_state")
          else
            logger DEBUG "Setting up Energy Calculation type on server";;
            response ← requests_post url
              (Some {[ "name" := JStr name; "type" := JStr "energy_calculation";
                       "mode" := JStr energy_calculation ]}) None;
            logger DEBUG ("Response from server: " +:+ text response);;
            if negb (startswith (text response) "OK") then return_ (PStr (text response))
            else mret (<["Energy Calculation" := text response]> success)
        else mret success
    | None => mret success
    end;
  return_ (PStr (String LF "" +:+ pformat E success)).

Definition calculate (name : string) (parameters : gmap string json) : M () :=
  base_url ← self_url;
  let url := base_url +:+ "/calculate" in
  let payload : gmap string json := {[ "name" := JStr name ]} in
  (* payload.update(parameters): the entries of [parameters] win *)
  let payload := parameters ∪ payload in
  response ← requests_get url (Some payload);
  try_except (j ← json_ response; return_ (PJson j))
    ValueError (return_ (PStr (text response))).

Definition status : M () :=
  base_url ← self_url;
  let url := base_url +:+ "/status" in
  response ← requests_get url None;
  try_except (j ← json_ response; return_ (PJson j))
    ValueError (return_ (PStr (text response))).

Definition results (name : string) : M () :=
  base_url ← self_url;
  let url := base_url +:+ "/results" in
  response ← requests_get url (Some {[ "name" := JStr name ]});
  try_except (j ← json_ response; df ← read_json j; return_ df)
    JSONDecodeError (return_ (PStr (text response))).

Definition cleanup (name : string) (target : option string) : M () :=
  base_url ← self_url;
  let url := base_url +:+ "/cleanup" in
  (if bool_decide (target = Some "results" ∨ target = None)
   then logger WARNING ("Result database will be cleared for setup: " +:+ name)
   else mret ());;
  (if bool_decide (target = Some "simulations" ∨ target = None)
   then logger WARNING ("Simulation results will be deleted for setup: " +:+ name)
   else mret ());;
  answer ← input "Are you sure? (y/n): ";
  if String.eqb answer "y" then
    response ← requests_get url
      (Some {[ "name" := JStr name; "target" := opt_str target ]});
    return_ (PStr (text response))
  else
    logger WARNING "Cleanup cancelled".

Definition reinstate (name calc_id : string) : M () :=
  base_url ← self_url;
  let url := base_url +:+ "/reinstate" in
  response ← requests_get url (Some {[ "name" := JStr name; "id" := JStr calc_id ]});
  try_except (j ← json_ response; return_ (PJson j))
    JSONDecodeError (return_ (PStr (text response))).

Definition instate (name : string) (parameters : gmap string json)
    (options : option json) : M () :=
  base_url ← self_url;
  let url := base_url +:+ "/instate" in
  let payload : gmap string json := {[ "name" := JStr name ]} in
  let payload := parameters ∪ payload in
  response ← match options with
    | Some options => requests_post url (Some payload) (Some (PStr (json_dumps E options)))
    | None => requests_get url (Some payload)
    end;
  try_except (j ← json_ response; return_ (PJson j))
    JSONDecodeError (return_ (PStr (text response))).

Definition get_model (name : string) : M () :=
  base_url ← self_url;
  let url := base_url +:+ "/model" in
  response ← requests_get url (Some {[ "name" := JStr name ]});
  try_except (model ← loads (content response); return_ model)
    UnpicklingError (return_ (PStr (text response))).

Definition get_params (name : string) : M () :=
  base_url ← self_url;
  let url := base_url +:+ "/parameters" in
  response ← requests_get url (Some {[ "name" := JStr name ]});
  try_except (j ← json_ response; return_ (PJson j))
    JSONDecodeError (return_ (PStr (text response))).

Definition get_full_params (name : string) : M () :=
  base_url ← self_url;
  let url := base_url +:+ "/parameters/full" in
  response ← requests_get url (Some {[ "name" := JStr name ]});
  try_except (param_dict ← loads (content response);
              params ← lift (dict_values E param_dict);
              return_ params)
    UnpicklingError (return_ (PStr (text response))).

Definition get_lca (name : string) : M () :=
  base_url ← self_url;
  let url := base_url +:+ "/lca" in
  response ← requests_get url (Some {[ "name" := JStr name ]});
  try_except (calc ← loads (content response); return_ calc)
    UnpicklingError (return_ (PStr (text response))).

Definition get_cost (name : string) : M () :=
  base_url ← self_url;
  let url := base_url +:+ "/cost" in
  response ← requests_get url (Some {[ "name" := JStr name ]});
  try_except (calc ← loads (content response); return_ calc)
    UnpicklingError (return_ (PStr (text response))).

(** Python defaults: [calc_id=None], [variables=None], [typ='zone'],
    [period='runperiod']. *)
Definition get_energy (name : string) (calc_id : option string)
    (variables : option (list string)) (typ period : string) : M () :=
  base_url ← self_url;
  let url := base_url +:+ "/energy" in
  let variables := match variables with
                   | None => ["heating"; "cooling"; "lights"]
                   | Some variables => variables
                   end in
  response ← requests_get url
    (Some {[ "name" := JStr name;
             "id" := opt_str calc_id;
             "variables" := JList (JStr <$> variables);
             "type" := JStr typ;
             "period" := JStr period ]});
  try_except (j ← json_ response; df ← read_json j; return_ df)
    JSONDecodeError (return_ (PStr (text response))).

Definition get_energy_detailed (name calc_id variable typ period : string) : M () :=
  base_url ← self_url;
  let url := base_url +:+ "/energy/detailed" in
  response ← requests_get url
    (Some {[ "name" := JStr name;
             "id" := JStr calc_id;
             "variable" := JStr variable;
             "type" := JStr typ;
             "period" := JStr period ]});
  try_except (j ← json_ response; df ← read_json j; return_ df)
    JSONDecodeError (return_ (PStr (text response))).

End Client.

(** ** The public interface *)

(** The classes the module defines: its one [class] statement. *)
Inductive py_class : Type := class_RemoteClient.

Definition classes : list py_class := [class_RemoteClient].

(** The public methods of [RemoteClient], in source order. *)
Inductive method : Type :=
| m_setup | m_calculate | m_status | m_results | m_cleanup | m_reinstate
| m_instate | m_get_model | m_get_params | m_get_full_params | m_get_lca
| m_get_cost | m_get_energy | m_get_energy_detailed.

Global Instance method_eq_dec : EqDecision method.
Proof. solve_decision. Defined.

Definition methods : list method :=
  [ m_setup; m_calculate; m_status; m_results; m_cleanup; m_reinstate;
    m_instate; m_get_model; m_get_params; m_get_full_params; m_get_lca;
    m_get_cost; m_get_energy; m_get_energy_detailed ].

(** The path each method appends to [self.url] (its first statement). *)
Definition endpoint (m : method) : string :=
  match m with
  | m_setup => "/setup"
  | m_calculate => "/calculate"
  | m_status => "/status"
  | m_results => "/results"
  | m_cleanup => "/cleanup"
  | m_reinstate => "/reinstate"
  | m_instate => "/instate"
  | m_get_model => "/model"
  | m_get_params => "/parameters"
  | m_get_full_params => "/parameters/full"
  | m_get_lca => "/lca"
  | m_get_cost => "/cost"
  | m_get_energy => "/energy"
  | m_get_energy_detailed => "/energy/detailed"
  end.

(** The endpoint family of the service. *)
Definition endpoint_family : list string :=
  [ "/setup"; "/calculate"; "/status"; "/results"; "/cleanup"; "/reinstate";
    "/instate"; "/model"; "/parameters"; "/parameters/full"; "/lca"; "/cost";
    "/energy"; "/energy/detailed" ].

(** The arguments of [setup] after [name]. *)
Record setup_args : Type := mkSetupArgs {
  a_epw : option string;
  a_weather_data : option string;
  a_idf : option pyval;
  a_model : option pyval;
  a_parameters : option pyval;
  a_lca_calculation : option pyval;
  a_cost_calculation : option pyval;
  a_energy_calculation : option string;
  a_init_db : bool
}.

(** A call of a public method with its arguments. *)
Inductive invocation : Type :=
| Setup (name : string) (a : setup_args)
| Calculate (name : string) (parameters : gmap string json)
| Status
| Results (name : string)
| Cleanup (name : string) (target : option string)
| Reinstate (name calc_id : string)
| Instate (name : string) (parameters : gmap string json) (options : option json)
| GetModel (name : string)
| GetParams (name : string)
| GetFullParams (name : string)
| GetLca (name : string)
| GetCost (name : string)
| GetEnergy (name : string) (calc_id : option string) (variables : option (list string))
    (typ period : string)
| GetEnergyDetailed (name calc_id variable typ period : string).

Definition method_of (c : invocation) : method :=
  match c with
  | Setup _ _ => m_setup
  | Calculate _ _ => m_calculate
  | Status => m_status
  | Results _ => m_results
  | Cleanup _ _ => m_cleanup
  | Reinstate _ _ => m_reinstate
  | Instate _ _ _ => m_instate
  | GetModel _ => m_get_model
  | GetParams _ => m_get_params
  | GetFullParams _ => m_get_full_params
  | GetLca _ => m_get_lca
  | GetCost _ => m_get_cost
  | GetEnergy _ _ _ _ _ => m_get_energy
  | GetEnergyDetailed _ _ _ _ _ => m_get_energy_detailed
  end.

Definition body (E : Env) (c : invocation) : M () :=
  match c with
  | Setup name a =>
      setup E name (a_epw a) (a_weather_data a) (a_idf a) (a_model a) (a_parameters a)
        (a_lca_calculation a) (a_cost_calculation a) (a_energy_calculation a) (a_init_db a)
  | Calculate name parameters => calculate E name parameters
  | Status => status E
  | Results name => results E name
  | Cleanup name target => cleanup E name target
  | Reinstate name calc_id => reinstate E name calc_id
  | Instate name parameters options => instate E name parameters options
  | GetModel name => get_model E name
  | GetParams name => get_params E name
  | GetFullParams name => get_full_params E name
  | GetLca name => get_lca E name
  | GetCost name => get_cost E name
  | GetEnergy name calc_id variables typ period => get_energy E name calc_id variables typ period
  | GetEnergyDetailed name calc_id variable typ period =>
      get_energy_detailed E name calc_id variable typ period
  end.

(** Calling a method in a world. *)
Definition invoke (E : Env) (c : invocation) (w : World) : outcome * World :=
  def (body E c) w.

(** The events a call appends to the trace. *)
Definition new_events (E : Env) (c : invocation) (w : World) : list event :=
  drop (length (events w)) (events (invoke E c w).2).

(** The HTTP exchanges of a call. *)
Definition issued (E : Env) (c : invocation) (w : World) : list (Request * reply) :=
  exchanges (new_events E c w).

(** ** Classification of the methods *)

(** The decoding a method attempts on the response, read off its [try]
    block; [setup] and [cleanup] have none. *)
Inductive decoding : Type :=
| AsJson     (* response.json() *)
| AsTable    (* pd.read_json(response.json(), orient='split') *)
| AsObject.  (* dill.loads(response.content) *)

Definition decoding_of (m : method) : option decoding :=
  match m with
  | m_setup | m_cleanup => None
  | m_calculate | m_status | m_reinstate | m_instate | m_get_params => Some AsJson
  | m_results | m_get_energy | m_get_energy_detailed => Some AsTable
  | m_get_model | m_get_full_params | m_get_lca | m_get_cost => Some AsObject
  end.

(** The class named in the method's [except] clause. *)
Definition except_class (m : method) : exn :=
  match m with
  | m_calculate | m_status => ValueError
  | m_get_model | m_get_full_params | m_get_lca | m_get_cost => UnpicklingError
  | _ => JSONDecodeError
  end.

(** The outcome of a decoding on a response. *)
Definition decode (E : Env) (d : decoding) (r : Response) : exn + pyval :=
  match d with
  | AsJson =>
      match response_json E r with inl e => inl e | inr j => inr (PJson j) end
  | AsTable =>
      match response_json E r with inl e => inl e | inr j => pd_read_json E j end
  | AsObject => dill_loads E (content r)
  end.

(** The library calls a decoding consists of. *)
Definition decode_calls (E : Env) (d : decoding) (r : Response) : list decoder_call :=
  match d with
  | AsJson => [CallResponseJson r]
  | AsTable =>
      match response_json E r with
      | inl _ => [CallResponseJson r]
      | inr j => [CallResponseJson r; CallReadJson j]
      end
  | AsObject => [CallDillLoads (content r)]
  end.

(** ** [setup] as a pass over its components *)

(** The nine blocks of [setup], in source order. *)
Inductive component : Type :=
| Epw | WeatherData | Idf | Model | Parameters | LcaCalculation
| CostCalculation | Database | EnergyCalculation.

Global Instance component_eq_dec : EqDecision component.
Proof. solve_decision. Defined.

Definition component_order : list component :=
  [ Epw; WeatherData; Idf; Model; Parameters; LcaCalculation; CostCalculation;
    Database; EnergyCalculation ].

(** The ['type'] query parameter of a component's request. *)
Definition type_name (c : component) : string :=
  match c with
  | Epw => "epw"
  | WeatherData => "weather_data"
  | Idf => "idf"
  | Model => "model"
  | Parameters => "parameters"
  | LcaCalculation => "lca_calculation"
  | CostCalculation => "cost_calculation"
  | Database => "database"
  | EnergyCalculation => "energy_calculation"
  end.

(** The key under which a component's success message is stored. *)
Definition success_key (c : component) : string :=
  match c with
  | Epw => "epw"
  | WeatherData => "weather"
  | Idf => "idf"
  | Model => "model"
  | Parameters => "parameters"
  | LcaCalculation => "LCA Calculation"
  | CostCalculation => "Cost Calculation"
  | Database => "Database"
  | EnergyCalculation => "Energy Calculation"
  end.

Definition announce (c : component) : string :=
  match c with
  | Epw => "Setting up EPW on server"
  | WeatherData => "Setting up weather data on server"
  | Idf => "Setting up IDF on server"
  | Model => "Setting up model on server"
  | Parameters => "Setting up parameters on server"
  | LcaCalculation => "Setting up LCA Calculation on server"
  | CostCalculation => "Setting up Cost Calculation on server"
  | Database => "Initiating result database on server"
  | EnergyCalculation => "Setting up Energy Calculation type on server"
  end.

(** The guard of a component's block. *)
Definition supplied (a : setup_args) (c : component) : bool :=
  match c with
  | Epw => bool_decide (is_Some (a_epw a))
  | WeatherData => bool_decide (is_Some (a_weather_data a))
  | Idf => bool_decide (is_Some (a_idf a))
  | Model => bool_decide (is_Some (a_model a))
  | Parameters => bool_decide (is_Some (a_parameters a))
  | LcaCalculation => bool_decide (is_Some (a_lca_calculation a))
  | CostCalculation => bool_decide (is_Some (a_cost_calculation a))
  | Database => a_init_db a
  | EnergyCalculation =>
      match a_energy_calculation a with
      | Some s => negb (String.eqb s "")
      | None => false
      end
  end.

(** The components whose guard holds, in source order. *)
Definition plan (a : setup_args) : list component :=
  filter (λ c, supplied a c = true) component_order.

(** The type check inside the energy block. *)
Definition energy_rejected (a : setup_args) : bool :=
  match a_energy_calculation a with
  | Some s => negb (String.eqb s "") && negb (bool_decide (s ∈ ["simulation"; "steady_state"]))
  | None => false
  end.

Definition rejected (a : setup_args) (c : component) : bool :=
  match c with EnergyCalculation => energy_rejected a | _ => false end.

Definition energy_message : string :=
  "Energy calculation type can be one of the following: simulation / steady_state".

Definition setup_params (name : string) (a : setup_args) (c : component) : gmap string json :=
  match c with
  | EnergyCalculation =>
      {[ "name" := JStr name; "type" := JStr "energy_calculation";
         "mode" := opt_str (a_energy_calculation a) ]}
  | _ => {[ "name" := JStr name; "type" := JStr (type_name c) ]}
  end.

Definition dumped (E : Env) (o : option pyval) : exn + option pyval :=
  match o with
  | Some v =>
      match dill_dumps E v with inl e => inl e | inr b => inr (Some (PBytes b)) end
  | None => inr None
  end.

(** The local preparation of a component's request body. *)
Definition payload (E : Env) (a : setup_args) (c : component) : exn + option pyval :=
  match c with
  | Epw =>
      match a_epw a with
      | Some p =>
          match read_text E p with
          | inl e => inl e
          | inr t => inr (Some (PStr (replace_crlf t)))
          end
      | None => inr None
      end
  | WeatherData =>
      match a_weather_data a with
      | Some p =>
          match pd_read_csv E p with
          | inl e => inl e
          | inr weather => dumped E (Some weather)
          end
      | None => inr None
      end
  | Idf =>
      match a_idf a with
      | Some v =>
          match idfstr E v with inl e => inl e | inr t => inr (Some (PStr t)) end
      | None => inr None
      end
  | Model => dumped E (a_model a)
  | Parameters => dumped E (a_parameters a)
  | LcaCalculation => dumped E (a_lca_calculation a)
  | CostCalculation => dumped E (a_cost_calculation a)
  | Database | EnergyCalculation => inr None
  end.

Definition setup_request (url name : string) (a : setup_args) (c : component)
    (data : option pyval) : Request :=
  mkRequest POST url (Some (setup_params name a c)) data.

(** A reply that lets [setup] go on. *)
Definition ok_reply (rp : reply) : bool :=
  match rp with inr r => startswith (text r) "OK" | inl _ => false end.

(** One block. *)
Definition component_step (E : Env) (url name : string) (a : setup_args)
    (c : component) (success : gmap string string) : M (gmap string string) :=
  if supplied a c then
    if rejected a c then return_ (PStr energy_message)
    else
      logger DEBUG (announce c);;
      data ← lift (payload E a c);
      response ← requests_post E url (Some (setup_params name a c)) data;
      logger DEBUG ("Response from server: " +:+ text response);;
      if negb (startswith (text response) "OK") then return_ (PStr (text response))
      else mret (<[success_key c := text response]> success)
  else mret success.

Fixpoint run_components (E : Env) (url name : string) (a : setup_args)
    (cs : list component) (success : gmap string string) : M (gmap string string) :=
  match cs with
  | [] => mret success
  | c :: cs' =>
      success ← component_step E url name a c success;
      run_components E url name a cs' success
  end.

Definition setup_pass (E : Env) (name : string) (a : setup_args) : M () :=
  base_url ← self_url;
  let url := base_url +:+ "/setup" in
  logger INFO ("Setting up calculation: " +:+ name +:+ " at: " +:+ base_url);;
  success ← run_components E url name a component_order ∅;
  return_ (PStr (String LF "" +:+ pformat E success)).

(** The big-step reading of the pass: [run cs success h r xs] says that on
    the components [cs], after the exchanges [h], the pass finishes with [r]
    and performs the exchanges [xs]. *)
Inductive run (E : Env) (url name : string) (a : setup_args) :
    list component → gmap string string → list (Request * reply) →
    result (gmap string string) → list (Request * reply) → Prop :=
| run_done success h :
    run E url name a [] success h (Normal success) []
| run_skip c cs success h r xs :
    supplied a c = false →
    run E url name a cs success h r xs →
    run E url name a (c :: cs) success h r xs
| run_rejected c cs success h :
    supplied a c = true → rejected a c = true →
    run E url name a (c :: cs) success h (Return (PStr energy_message)) []
| run_unprepared c cs success h e :
    supplied a c = true → rejected a c = false →
    payload E a c = inl e →
    run E url name a (c :: cs) success h (Raise e) []
| run_unanswered c cs success h data e :
    supplied a c = true → rejected a c = false →
    payload E a c = inr data →
    respond E h (setup_request url name a c data) = inl e →
    run E url name a (c :: cs) success h (Raise e)
      [(setup_request url name a c data, inl e)]
| run_refused c cs success h data response :
    supplied a c = true → rejected a c = false →
    payload E a c = inr data →
    respond E h (setup_request url name a c data) = inr response →
    startswith (text response) "OK" = false →
    run E url name a (c :: cs) success h (Return (PStr (text response)))
      [(setup_request url name a c data, inr response)]
| run_accepted c cs success h data response r xs :
    supplied a c = true → rejected a c = false →
    payload E a c = inr data →
    respond E h (setup_request url name a c data) = inr response →
    startswith (text response) "OK" = true →
    run E url name a cs (<[success_key c := text response]> success)
      (h ++ [(setup_request url name a c data, inr response)]) r xs →
    run E url name a (c :: cs) success h r
      ((setup_request url name a c data, inr response) :: xs).

(** How [setup] ends, given how the pass over its blocks ended. *)
Definition finish (E : Env) (r : result (gmap string string)) : outcome :=
  match r with
  | Normal success => Returned (PStr (String LF "" +:+ pformat E success))
  | Return v => Returned v
  | Raise e => Raised e
  end.

(** The exchange [x] carries the request of component [c]. *)
Definition request_for (url name : string) (a : setup_args) (c : component)
    (x : Request * reply) : Prop :=
  rejected a c = false ∧ ∃ data, x.1 = setup_request url name a c data.

Definition reply_text (rp : reply) : string :=
  match rp with inr r => text r | inl _ => "" end.

(** [success[key] = response.text] for the exchange of one component. *)
Definition record_success (success : gmap string string)
    (cx : component * (Request * reply)) : gmap string string :=
  <[success_key cx.1 := reply_text cx.2.2]> success.

(** ** The decoding methods and [cleanup], spelled out *)

(** What follows a successful decoding inside the [try] block. *)
Definition post_process (E : Env) (m : method) (v : pyval) : exn + pyval :=
  match m with
  | m_get_full_params => dict_values E v
  | _ => inr v
  end.

(** The outcome of a decoding method once the response [r] has arrived. *)
Definition decoded (E : Env) (m : method) (d : decoding) (r : Response) : outcome :=
  match decode E d r with
  | inl e => if issubclass e (except_class m) then Returned (PStr (text r)) else Raised e
  | inr v =>
      match post_process E m v with
      | inl e => if issubclass e (except_class m) then Returned (PStr (text r)) else Raised e
      | inr v' => Returned v'
      end
  end.

(** The request of a decoding method, for a client whose [self.url] is [u]:
    the [url] and [params] (and [data]) it hands to [requests]. *)
Definition request_of (E : Env) (u : string) (c : invocation) : option Request :=
  match c with
  | Setup _ _ | Cleanup _ _ => None
  | Calculate name parameters =>
      Some (mkRequest GET (u +:+ "/calculate")
              (Some (parameters ∪ {[ "name" := JStr name ]})) None)
  | Status => Some (mkRequest GET (u +:+ "/status") None None)
  | Results name =>
      Some (mkRequest GET (u +:+ "/results") (Some {[ "name" := JStr name ]}) None)
  | Reinstate name calc_id =>
      Some (mkRequest GET (u +:+ "/reinstate")
              (Some {[ "name" := JStr name; "id" := JStr calc_id ]}) None)
  | Instate name parameters options =>
      Some (mkRequest (match options with Some _ => POST | None => GET end)
              (u +:+ "/instate")
              (Some (parameters ∪ {[ "name" := JStr name ]}))
              (match options with
               | Some o => Some (PStr (json_dumps E o))
               | None => None
               end))
  | GetModel name =>
      Some (mkRequest GET (u +:+ "/model") (Some {[ "name" := JStr name ]}) None)
  | GetParams name =>
      Some (mkRequest GET (u +:+ "/parameters") (Some {[ "name" := JStr name ]}) None)
  | GetFullParams name =>
      Some (mkRequest GET (u +:+ "/parameters/full") (Some {[ "name" := JStr name ]}) None)
  | GetLca name =>
      Some (mkRequest GET (u +:+ "/lca") (Some {[ "name" := JStr name ]}) None)
  | GetCost name =>
      Some (mkRequest GET (u +:+ "/cost") (Some {[ "name" := JStr name ]}) None)
  | GetEnergy name calc_id variables typ period =>
      Some (mkRequest GET (u +:+ "/energy")
              (Some {[ "name" := JStr name;
                       "id" := opt_str calc_id;
                       "variables" :=
                         JList (JStr <$> default ["heating"; "cooling"; "lights"] variables);
                       "type" := JStr typ;
                       "period" := JStr period ]}) None)
  | GetEnergyDetailed name calc_id variable typ period =>
      Some (mkRequest GET (u +:+ "/energy/detailed")
              (Some {[ "name" := JStr name;
                       "id" := JStr calc_id;
                       "variable" := JStr variable;
                       "type" := JStr typ;
                       "period" := JStr period ]}) None)
  end.

Definition cleanup_warnings (name : string) (target : option string) : list event :=
  (if bool_decide (target = Some "results" ∨ target = None)
   then [EvLog WARNING ("Result database will be cleared for setup: " +:+ name)] else [])
  ++ (if bool_decide (target = Some "simulations" ∨ target = None)
      then [EvLog WARNING ("Simulation results will be deleted for setup: " +:+ name)] else []).

Definition cleanup_request (u name : string) (target : option string) : Request :=
  mkRequest GET (u +:+ "/cleanup")
    (Some {[ "name" := JStr name; "target" := opt_str target ]}) None.

(** ** The server after some exchanges *)

(** The server as it is after the exchanges [h]. *)
Definition after (h : list (Request * reply)) (E : Env) : Env :=
  mkEnv (λ h' rq, respond E (h ++ h') rq)
    (response_json E) (pd_read_json E) (dill_loads E) (dict_values E) (dill_dumps E)
    (read_text E) (pd_read_csv E) (idfstr E) (json_dumps E) (pformat E).

(** ** Notions used in the statements *)

(** [payload] is what [{'name': name}] becomes after [update(parameters)]:
    it has the key ['name'] and every entry of [parameters], and nothing
    else. *)
Definition carries (name : string) (parameters payload : gmap string json) : Prop :=
  is_Some (payload !! "name") ∧
  (∀ k v, parameters !! k = Some v → payload !! k = Some v) ∧
  dom payload = {["name"]} ∪ dom parameters ∧
  (parameters !! "name" = None → payload !! "name" = Some (JStr name)).

(** The blocks of [setup] that precede the energy block. *)
Definition before_energy : list component :=
  [ Epw; WeatherData; Idf; Model; Parameters; LcaCalculation; CostCalculation; Database ].

(** Readings of the specification that the code does not satisfy in
    general; each is refuted below at a concrete call. *)

(** Any failure of the decoding makes the method return [response.text]. *)
Definition returns_text_on_decode_failure (E : Env) (c : invocation) (w : World) : Prop :=
  ∀ d rq r e,
    decoding_of (method_of c) = Some d →
    issued E c w = [(rq, inr r)] →
    decode E d r = inl e →
    (invoke E c w).1 = Returned (PStr (text r)).

(** The call performs exactly one HTTP request. *)
Definition one_request (E : Env) (c : invocation) (w : World) : Prop :=
  length (issued E c w) = 1%nat.

(** The class has thirteen public request methods. *)
Definition thirteen_methods : Prop := length methods = 13%nat.

(** The call attempts exactly one decoding, of one of the three kinds. *)
Definition decodes_once (E : Env) (c : invocation) (w : World) : Prop :=
  ∃ d r, decoder_calls (new_events E c w) = decode_calls E d r.

(** With a line on the console, [cleanup] issues its request and returns
    the text of the server's answer if and only if the line is ['y']. *)
Definition returns_text_iff_confirmed (E : Env) (name : string)
    (target : option string) (w : World) : Prop :=
  ∀ line rest, stdin w = line :: rest →
    (line = "y" ↔
     ∃ rq r, issued E (Cleanup name target) w = [(rq, inr r)] ∧
             (invoke E (Cleanup name target) w).1 = Returned (PStr (text r))).

(** [setup] returns the pretty-printed dict whenever every request it
    issued was accepted. *)
Definition success_when_all_accepted (E : Env) (name : string) (a : setup_args)
    (w : World) : Prop :=
  Forall (λ x, ok_reply x.2 = true) (issued E (Setup name a) w) →
  ∃ success,
    (invoke E (Setup name a) w).1 = Returned (PStr (String LF "" +:+ pformat E success)).

(** [setup] returns the fixed message whenever the energy type is not one
    of the two known ones. *)
Definition rejects_energy_type (E : Env) (name : string) (a : setup_args)
    (w : World) : Prop :=
  energy_rejected a = true →
  (invoke E (Setup name a) w).1 = Returned (PStr energy_message).

(** ** Further observations on calls and traces *)

(** The HTTP verb of the requests of a call. *)
Definition verb (c : invocation) : http_method :=
  match c with
  | Setup _ _ => POST
  | Instate _ _ (Some _) => POST
  | _ => GET
  end.

(** The prompts of a trace. *)
Definition prompts (evs : list event) : list string :=
  omap (λ ev, match ev with EvInput p => Some p | _ => None end) evs.

(** The log records of a trace. *)
Definition log_records (evs : list event) : list (level * string) :=
  omap (λ ev, match ev with EvLog lv msg => Some (lv, msg) | _ => None end) evs.

(** The arguments [a] with another [energy_calculation]. *)
Definition with_energy (a : setup_args) (energy : option string) : setup_args :=
  mkSetupArgs (a_epw a) (a_weather_data a) (a_idf a) (a_model a) (a_parameters a)
    (a_lca_calculation a) (a_cost_calculation a) energy (a_init_db a).

(** Whether a carriage return followed by a line feed occurs in [s]. *)
Fixpoint has_crlf (s : string) : bool :=
  match s with
  | String c (String c' _ as rest) =>
      if decide (c = CR ∧ c' = LF) then true else has_crlf rest
  | _ => false
  end.

(** [s.count(c)] for a character [c]. *)
Fixpoint count_char (c : Ascii.ascii) (s : string) : nat :=
  match s with
  | "" => 0
  | String c' rest => (if decide (c' = c) then 1 else 0) + count_char c rest
  end.

(** ** A concrete environment for examples *)

Module Demo.

(** Decoders on a few literal payloads.  [response.json()] accepts three
    JSON texts; [pd.read_json] accepts only a JSON string (a dict, list or
    number is not a path or buffer: [ValueError]); [dill.loads] of no bytes
    at all runs out of input ([EOFError]) and rejects other garbage
    ([UnpicklingError]). *)
Definition response_json (r : Response) : exn + json :=
  if String.eqb (text r) "{}" then inr (JDict [])
  else if String.eqb (text r) "[]" then inr (JList [])
  else if String.eqb (text r) "0" then inr (JInt 0)
  else inl JSONDecodeError.

Definition pd_read_json (j : json) : exn + pyval :=
  match j with
  | JStr _ => inr (PObject "DataFrame" 1)
  | _ => inl ValueError
  end.

Definition dill_loads (b : string) : exn + pyval :=
  if String.eqb b "" then inl EOFError
  else if String.eqb b "pickle" then inr (PObject "Building" 2)
  else inl UnpicklingError.

Definition dict_values (v : pyval) : exn + pyval :=
  match v with
  | PObject "dict" oid => inr (PObject "list" oid)
  | _ => inl AttributeError
  end.

Definition dill_dumps (v : pyval) : exn + string := inr "pickle".

Definition read_text (path : string) : exn + string :=
  if String.eqb path "weather.epw" then inr ("LOCATION" +:+ String CR (String LF ""))
  else inl FileNotFoundError.

Definition pd_read_csv (path : string) : exn + pyval :=
  if String.eqb path "weather.csv" then inr (PObject "DataFrame" 3)
  else inl FileNotFoundError.

Definition idfstr (v : pyval) : exn + string := inr "Version,9.2;".

Definition json_dumps (j : json) : string := "{}".

Definition pformat (d : gmap string string) : string :=
  "{" +:+ foldr (λ kv acc, kv.1 +:+ ": " +:+ kv.2 +:+ ", " +:+ acc) "}" (map_to_list d).

(** An environment around a given server. *)
Definition env (server : list (Request * reply) → Request → reply) : Env :=
  mkEnv server response_json pd_read_json dill_loads dict_values dill_dumps
    read_text pd_read_csv idfstr json_dumps pformat.

(** A server that answers every request with the same text. *)
Definition always (t : string) : list (Request * reply) → Request → reply :=
  λ _ _, inr (mkResponse t t).

(** A server that answers ['OK'] except to requests of one setup type. *)
Definition rejects (ty : string) : list (Request * reply) → Request → reply :=
  λ _ rq,
    match req_params rq ≫= (.!! "type") with
    | Some (JStr t) =>
        if String.eqb t ty then inr (mkResponse "ERROR" "ERROR")
        else inr (mkResponse "OK" "OK")
    | _ => inr (mkResponse "OK" "OK")
    end.

(** A transport that cannot reach the server. *)
Definition unreachable : list (Request * reply) → Request → reply :=
  λ _ _, inl RequestsConnectionError.

(** A fresh client and the console input still to be read. *)
Definition world (lines : list string) : World :=
  mkWorld (__init__ "http://localhost" 5000) [] lines.

(** [setup(name, energy_calculation=energy)], with [init_db] left at its
    default. *)
Definition only_energy (energy : string) : setup_args :=
  mkSetupArgs None None None None None None None (Some energy) true.

(** [setup(name, epw=Path('weather.epw'), energy_calculation='simulation')] *)
Definition epw_and_simulation : setup_args :=
  mkSetupArgs (Some "weather.epw") None None None None None None (Some "simulation") true.

End Demo.

(** * Properties *)

Open Scope list_scope.

(** ** Traces *)

Lemma exchanges_app evs1 evs2 :
  exchanges (evs1 ++ evs2) = exchanges evs1 ++ exchanges evs2.
Proof. apply omap_app. Qed.

Lemma decoder_calls_app evs1 evs2 :
  decoder_calls (evs1 ++ evs2) = decoder_calls evs1 ++ decoder_calls evs2.
Proof. apply omap_app. Qed.

Lemma exchanges_emit ev w :
  exchanges (events (emit ev w)) =
  exchanges (events w) ++
    match ev with EvRequest rq rp => [(rq, rp)] | _ => [] end.
Proof. cbn. rewrite exchanges_app. by destruct ev. Qed.

Lemma exchanges_cleanup_warnings name target :
  exchanges (cleanup_warnings name target) = [].
Proof. unfold cleanup_warnings. by repeat case_bool_decide. Qed.

Lemma decoder_calls_cleanup_warnings name target :
  decoder_calls (cleanup_warnings name target) = [].
Proof. unfold cleanup_warnings. by repeat case_bool_decide. Qed.

Ltac norm_world :=
  repeat first [ progress cbn [self events stdin app] | rewrite <- app_assoc ].

(** ** Equations of the statement monad *)

Lemma bind_ext {A B} (m m' : M A) (f g : A → M B) w :
  m w = m' w → (∀ a w', f a w' = g a w') → (m ≫= f) w = (m' ≫= g) w.
Proof.
  intros Hm Hfg. unfold mbind, M_bind. rewrite Hm.
  destruct (m' w) as [[x|v|e] w']; auto.
Qed.

Lemma bind_assoc {A B C} (m : M A) (f : A → M B) (g : B → M C) w :
  ((m ≫= f) ≫= g) w = (m ≫= (λ x, f x ≫= g)) w.
Proof.
  unfold mbind, M_bind. destruct (m w) as [[x|v|e] w']; reflexivity.
Qed.

Lemma self_url_bind {B} (f : string → M B) w :
  (self_url ≫= f) w = f (url (self w)) w.
Proof. reflexivity. Qed.

Lemma logger_bind {B} lv msg (f : () → M B) w :
  (logger lv msg ≫= f) w = f () (emit (EvLog lv msg) w).
Proof. reflexivity. Qed.

Lemma lift_inr_bind {A B} (x : A) (f : A → M B) w :
  (lift (inr x) ≫= f) w = f x w.
Proof. reflexivity. Qed.

Lemma lift_inl_bind {A B} e (f : A → M B) w :
  (lift (inl e) ≫= f) w = (Raise e, w).
Proof. reflexivity. Qed.

Lemma requests_call_bind {B} E rq (f : Response → M B) w :
  (requests_call E rq ≫= f) w =
  match respond E (exchanges (events w)) rq with
  | inl e => (Raise e, emit (EvRequest rq (inl e)) w)
  | inr r => f r (emit (EvRequest rq (inr r)) w)
  end.
Proof.
  unfold mbind, M_bind, requests_call.
  by destruct (respond E (exchanges (events w)) rq).
Qed.

(** ** [setup] is a pass over [component_order] *)

Section Pass.
Context (E : Env) (url name : string) (a : setup_args).

Lemma run_components_cons {B} c cs success (k : gmap string string → M B) w :
  (run_components E url name a (c :: cs) success ≫= k) w
  = (component_step E url name a c success ≫=
       λ s, run_components E url name a cs s ≫= k) w.
Proof. simpl. apply bind_assoc. Qed.

(** One block: what it appends to the trace and how it ends. *)
Lemma component_step_cases c success w :
  ∃ evs r, component_step E url name a c success w
           = (r, mkWorld (self w) (events w ++ evs) (stdin w)) ∧
    decoder_calls evs = [] ∧
    let h := exchanges (events w) in
    (supplied a c = false ∧ r = Normal success ∧ evs = [])
    ∨ (supplied a c = true ∧ rejected a c = true ∧
       r = Return (PStr energy_message) ∧ evs = [])
    ∨ (supplied a c = true ∧ rejected a c = false ∧
       ∃ e, payload E a c = inl e ∧ r = Raise e ∧ exchanges evs = [])
    ∨ (supplied a c = true ∧ rejected a c = false ∧
       ∃ data rp, payload E a c = inr data ∧
         respond E h (setup_request url name a c data) = rp ∧
         exchanges evs = [(setup_request url name a c data, rp)] ∧
         match rp with
         | inl e => r = Raise e
         | inr response =>
             r = if startswith (text response) "OK"
                 then Normal (<[success_key c := text response]> success)
                 else Return (PStr (text response))
         end).
Proof.
  unfold component_step.
  destruct (supplied a c) eqn:Hs.
  2:{ exists [], (Normal success). rewrite app_nil_r. destruct w; cbn; auto 10. }
  destruct (rejected a c) eqn:Hr.
  { exists [], (Return (PStr energy_message)). rewrite app_nil_r. destruct w; cbn; auto 10. }
  rewrite logger_bind.
  destruct (payload E a c) as [e|data] eqn:Hp.
  { rewrite lift_inl_bind. eexists [_], _. split; [reflexivity|].
    split; [done|]. right; right; left. eauto 10. }
  rewrite lift_inr_bind. unfold requests_post. rewrite requests_call_bind.
  rewrite exchanges_emit, app_nil_r.
  fold (setup_request url name a c data).
  destruct (respond E (exchanges (events w)) (setup_request url name a c data))
    as [e|response] eqn:Hrp.
  - eexists [_; _], _. split; [unfold emit; cbn; by rewrite <- app_assoc|].
    split; [done|]. do 3 right. do 2 (split; [done|]). exists data, (inl e). auto.
  - rewrite logger_bind.
    exists [EvLog DEBUG (announce c);
            EvRequest (setup_request url name a c data) (inr response);
            EvLog DEBUG ("Response from server: " +:+ text response)].
    exists (if startswith (text response) "OK"
            then Normal (<[success_key c := text response]> success)
            else Return (PStr (text response))).
    split.
    { destruct (startswith (text response) "OK"); cbn [negb];
        unfold emit, return_, mret, M_ret; cbn; rewrite <- !app_assoc; reflexivity. }
    split; [done|]. do 3 right. do 2 (split; [done|]).
    exists data, (inr response). rewrite Hrp. auto.
Qed.

(** The pass computes a run. *)
Lemma run_components_sound cs : ∀ success w,
  ∃ evs r, run_components E url name a cs success w
           = (r, mkWorld (self w) (events w ++ evs) (stdin w)) ∧
    decoder_calls evs = [] ∧
    run E url name a cs success (exchanges (events w)) r (exchanges evs).
Proof.
  induction cs as [|c cs IH]; intros success w.
  { exists [], (Normal success). rewrite app_nil_r. destruct w; cbn.
    split; [done|]. split; [done|]. constructor. }
  cbn [run_components]. unfold mbind, M_bind.
  destruct (component_step_cases c success w) as (evs1 & r1 & -> & Hd1 & Hcases).
  destruct Hcases as [(Hs & -> & ->)|[(Hs & Hr & -> & ->)|
    [(Hs & Hr & e & Hp & -> & Hx)|(Hs & Hr & data & rp & Hp & Hrp & Hx & Hres)]]].
  - destruct (IH success (mkWorld (self w) (events w ++ []) (stdin w)))
      as (evs & r & -> & Hd & Hrun).
    cbn [self events stdin] in *. rewrite app_nil_r in *.
    exists evs, r. split; [done|]. split; [done|]. by apply run_skip.
  - exists [], (Return (PStr energy_message)). split; [done|]. split; [done|].
    by apply run_rejected.
  - exists evs1, (Raise e). split; [done|]. split; [done|]. rewrite Hx.
    by apply run_unprepared.
  - destruct rp as [e|response].
    + subst r1. exists evs1, (Raise e). split; [done|]. split; [done|]. rewrite Hx.
      by apply run_unanswered.
    + destruct (startswith (text response) "OK") eqn:Hok; subst r1.
      * destruct (IH (<[success_key c := text response]> success)
                    (mkWorld (self w) (events w ++ evs1) (stdin w)))
          as (evs & r & -> & Hd & Hrun).
        cbn [self events stdin] in *.
        exists (evs1 ++ evs), r. rewrite app_assoc. split; [done|].
        split; [by rewrite decoder_calls_app, Hd1, Hd|].
        rewrite !exchanges_app, Hx in *. cbn [app].
        by apply run_accepted.
      * exists evs1, (Return (PStr (text response))). split; [done|]. split; [done|].
        rewrite Hx. by apply run_refused.
Qed.

(** *** What a run looks like *)

(** The requests of a run are those of an initial segment of the supplied
    components, in order. *)
Lemma run_requests cs success h r xs :
  run E url name a cs success h r xs →
  ∃ done, done `prefix_of` filter (λ c, supplied a c = true) cs ∧
          Forall2 (request_for url name a) done xs.
Proof.
  induction 1 as [success h|c cs success h r xs Hs _ IH|c cs success h Hs Hr
    |c cs success h e Hs Hr Hp|c cs success h data e Hs Hr Hp Hrp
    |c cs success h data response Hs Hr Hp Hrp Hok
    |c cs success h data response r xs Hs Hr Hp Hrp Hok _ IH].
  - exists []. split; [apply prefix_nil|constructor].
  - destruct IH as (done & Hpre & Hall). exists done. split; [|done].
    rewrite filter_cons_False; [done|]. by rewrite Hs.
  - exists []. split; [apply prefix_nil|constructor].
  - exists []. split; [apply prefix_nil|constructor].
  - exists [c]. rewrite filter_cons_True by done. split.
    + apply prefix_cons, prefix_nil.
    + repeat constructor; [done|]. by exists data.
  - exists [c]. rewrite filter_cons_True by done. split.
    + apply prefix_cons, prefix_nil.
    + repeat constructor; [done|]. by exists data.
  - destruct IH as (done & Hpre & Hall). exists (c :: done).
    rewrite filter_cons_True by done. split; [by apply prefix_cons|].
    constructor; [|done]. split; [done|]. by exists data.
Qed.

(** A request that is not accepted is the last one, and decides the result. *)
Lemma run_failure_last cs success h r xs :
  run E url name a cs success h r xs →
  ∀ i x, xs !! i = Some x → ok_reply x.2 = false →
    S i = length xs ∧
    r = match x.2 with
        | inr response => Return (PStr (text response))
        | inl e => Raise e
        end.
Proof.
  induction 1 as [success h|c cs success h r xs Hs _ IH|c cs success h Hs Hr
    |c cs success h e Hs Hr Hp|c cs success h data e Hs Hr Hp Hrp
    |c cs success h data response Hs Hr Hp Hrp Hok
    |c cs success h data response r xs Hs Hr Hp Hrp Hok _ IH];
    intros i x Hi Hx; try done.
  - by apply IH.
  - destruct i; [|done]. by injection Hi as <-.
  - destruct i; [|done]. by injection Hi as <-.
  - destruct i as [|i].
    + injection Hi as <-. cbn in Hx. congruence.
    + destruct (IH i x Hi Hx) as [Hlen ->]. split; [|done]. cbn. by rewrite Hlen.
Qed.

(** When every reply is accepted, the pass stops early only for the energy
    type check or a failed local preparation; otherwise it has served every
    supplied component and recorded each answer. *)
Lemma run_all_accepted cs success h r xs :
  run E url name a cs success h r xs →
  Forall (λ x, ok_reply x.2 = true) xs →
  match r with
  | Normal success' =>
      Forall2 (request_for url name a) (filter (λ c, supplied a c = true) cs) xs ∧
      success' = foldl record_success success
                   (zip (filter (λ c, supplied a c = true) cs) xs)
  | Return v =>
      v = PStr energy_message ∧
      ∃ cs1 c cs2, cs = cs1 ++ c :: cs2 ∧ supplied a c = true ∧ rejected a c = true ∧
        Forall2 (request_for url name a) (filter (λ c, supplied a c = true) cs1) xs
  | Raise e =>
      ∃ cs1 c cs2, cs = cs1 ++ c :: cs2 ∧ supplied a c = true ∧ payload E a c = inl e ∧
        Forall2 (request_for url name a) (filter (λ c, supplied a c = true) cs1) xs
  end.
Proof.
  induction 1 as [success h|c cs success h r xs Hs _ IH|c cs success h Hs Hr
    |c cs success h e Hs Hr Hp|c cs success h data e Hs Hr Hp Hrp
    |c cs success h data response Hs Hr Hp Hrp Hok
    |c cs success h data response r xs Hs Hr Hp Hrp Hok _ IH];
    intros Hall.
  - split; [constructor|done].
  - specialize (IH Hall). rewrite filter_cons_False by (by rewrite Hs).
    destruct r as [s'|v|e]; [done| |].
    + destruct IH as (-> & cs1 & c' & cs2 & -> & ? & ? & ?). split; [done|].
      exists (c :: cs1), c', cs2. rewrite filter_cons_False by (by rewrite Hs). done.
    + destruct IH as (cs1 & c' & cs2 & -> & ? & ? & ?).
      exists (c :: cs1), c', cs2. rewrite filter_cons_False by (by rewrite Hs). done.
  - split; [done|]. exists [], c, cs. repeat split; try done; try constructor.
  - exists [], c, cs. repeat split; try done; try constructor.
  - by apply Forall_cons in Hall as [? _].
  - apply Forall_cons in Hall as [Hx _]. cbn in Hx. congruence.
  - apply Forall_cons in Hall as [_ Hall]. specialize (IH Hall).
    assert (request_for url name a c (setup_request url name a c data, inr response))
      as Hreq.
    { split; [done|]. by exists data. }
    rewrite filter_cons_True by done.
    destruct r as [s'|v|e].
    + destruct IH as [? ->]. split; [by constructor|done].
    + destruct IH as (-> & cs1 & c' & cs2 & -> & ? & ? & ?). split; [done|].
      exists (c :: cs1), c', cs2. rewrite filter_cons_True by done.
      repeat split; try done. by constructor.
    + destruct IH as (cs1 & c' & cs2 & -> & ? & ? & ?).
      exists (c :: cs1), c', cs2. rewrite filter_cons_True by done.
      repeat split; try done. by constructor.
Qed.

End Pass.

Ltac block :=
  unfold component_step;
  cbn [supplied rejected payload dumped a_epw a_weather_data a_idf a_model a_parameters
       a_lca_calculation a_cost_calculation a_energy_calculation a_init_db];
  repeat match goal with
  | |- context [bool_decide (is_Some (Some ?x))] =>
      rewrite (bool_decide_eq_true_2 (is_Some (Some x))) by eauto
  | |- context [bool_decide (is_Some (@None ?T))] =>
      rewrite (bool_decide_eq_false_2 (is_Some (@None T))) by (intros [? ?]; discriminate)
  end.

Ltac next_block :=
  rewrite run_components_cons; apply bind_ext; [block | intros ? ?].

(** The body of [setup] is the pass, block by block. *)
Lemma setup_unroll E name a w :
  body E (Setup name a) w = setup_pass E name a w.
Proof.
  destruct a as [epw wd idf model params lca cost energy init_db].
  unfold body, setup, setup_pass;
    cbn [a_epw a_weather_data a_idf a_model a_parameters a_lca_calculation
         a_cost_calculation a_energy_calculation a_init_db].
  rewrite !self_url_bind, !logger_bind. cbv zeta.
  unfold component_order.
  next_block.
  { destruct epw as [p|]; block; [|reflexivity].
    rewrite !logger_bind. destruct (read_text E p); reflexivity. }
  next_block.
  { destruct wd as [p|]; block; [|reflexivity].
    rewrite !logger_bind. destruct (pd_read_csv E p) as [|df]; [reflexivity|].
    rewrite !lift_inr_bind. destruct (dill_dumps E df); reflexivity. }
  next_block.
  { destruct idf as [v|]; block; [|reflexivity].
    rewrite !logger_bind. destruct (idfstr E v); reflexivity. }
  next_block.
  { destruct model as [v|]; block; [|reflexivity].
    rewrite !logger_bind. destruct (dill_dumps E v); reflexivity. }
  next_block.
  { destruct params as [v|]; block; [|reflexivity].
    rewrite !logger_bind. destruct (dill_dumps E v); reflexivity. }
  next_block.
  { destruct lca as [v|]; block; [|reflexivity].
    rewrite !logger_bind. destruct (dill_dumps E v); reflexivity. }
  next_block.
  { destruct cost as [v|]; block; [|reflexivity].
    rewrite !logger_bind. destruct (dill_dumps E v); reflexivity. }
  next_block.
  { destruct init_db; reflexivity. }
  next_block.
  { unfold energy_rejected; cbn [a_energy_calculation].
    destruct energy as [s|]; [|reflexivity].
    destruct (negb (s =? "")%string); [|reflexivity].
    cbn [andb].
    destruct (negb (bool_decide (s ∈ ["simulation"; "steady_state"]))); reflexivity. }
  reflexivity.
Qed.

(** ** Every method, executed *)

Lemma invoke_setup E name a w :
  ∃ evs r,
    invoke E (Setup name a) w = (finish E r, mkWorld (self w) (events w ++ evs) (stdin w)) ∧
    decoder_calls evs = [] ∧
    run E (url (self w) +:+ "/setup") name a component_order ∅
      (exchanges (events w)) r (exchanges evs).
Proof.
  unfold invoke, def. rewrite setup_unroll. unfold setup_pass.
  rewrite self_url_bind. cbv zeta. rewrite logger_bind.
  set (w1 := emit _ w).
  destruct (run_components_sound E (url (self w) +:+ "/setup") name a component_order ∅ w1)
    as (evs & r & Heq & Hd & Hrun).
  unfold mbind, M_bind. rewrite Heq.
  subst w1. rewrite exchanges_emit, app_nil_r in Hrun. cbn [self events stdin emit].
  eexists (_ :: evs), r. rewrite <- app_assoc. split; [by destruct r|]. split; [done|].
  done.
Qed.

Ltac exec :=
  unfold invoke, def, body, calculate, status, results, reinstate, instate, get_model,
    get_params, get_full_params, get_lca, get_cost, get_energy, get_energy_detailed;
  rewrite ?self_url_bind; cbv zeta;
  unfold requests_get, requests_post.

Ltac case_decoders :=
  repeat match goal with
  | |- context [response_json ?E ?r] => destruct (response_json E r) as [?e|?j]
  | |- context [pd_read_json ?E ?r] => destruct (pd_read_json E r) as [?e|?v]
  | |- context [dill_loads ?E ?r] => destruct (dill_loads E r) as [?e|?v]
  | |- context [dict_values ?E ?r] => destruct (dict_values E r) as [?e|?v]
  | |- context [issubclass ?e ?c] => destruct (issubclass e c)
  end.

(** The twelve methods with a [try] block: one request, then the decoding. *)
Lemma invoke_decoding E c w d :
  decoding_of (method_of c) = Some d →
  ∃ rq, request_of E (url (self w)) c = Some rq ∧
    invoke E c w =
      match respond E (exchanges (events w)) rq with
      | inl e =>
          (Raised e, mkWorld (self w) (events w ++ [EvRequest rq (inl e)]) (stdin w))
      | inr r =>
          (decoded E (method_of c) d r,
           mkWorld (self w)
             (events w ++ EvRequest rq (inr r) :: (EvDecode <$> decode_calls E d r))
             (stdin w))
      end.
Proof.
  intros Hd.
  destruct c; try discriminate Hd; injection Hd as <-; exec.
  all: try (destruct options).
  all: try (destruct variables).
  all: rewrite requests_call_bind.
  all: match goal with |- context [respond _ _ ?rq] => exists rq end.
  all: (split; [reflexivity|]).
  all: match goal with
       | |- context [respond ?E ?h ?rq] => destruct (respond E h rq) as [e|r]
       end.
  all: try reflexivity.
  all: unfold decoded, decode, decode_calls, post_process, try_except, mbind, M_bind,
         json_, read_json, loads, lift, raise, mret, M_ret, return_, emit;
       cbn [self events stdin method_of except_class].
  all: rewrite <- ?app_assoc; cbn [app fmap list_fmap].
  all: case_decoders.
  all: rewrite <- ?app_assoc; try reflexivity.
  all: cbn [self events stdin]; rewrite <- ?app_assoc; reflexivity.
Qed.

Lemma invoke_cleanup E name target w :
  let prompt := EvInput "Are you sure? (y/n): " in
  let warn := cleanup_warnings name target in
  let rq := cleanup_request (url (self w)) name target in
  invoke E (Cleanup name target) w =
    match stdin w with
    | [] => (Raised EOFError, mkWorld (self w) (events w ++ warn ++ [prompt]) [])
    | line :: rest =>
        if String.eqb line "y" then
          match respond E (exchanges (events w)) rq with
          | inl e =>
              (Raised e,
               mkWorld (self w) (events w ++ warn ++ [prompt; EvRequest rq (inl e)]) rest)
          | inr r =>
              (Returned (PStr (text r)),
               mkWorld (self w) (events w ++ warn ++ [prompt; EvRequest rq (inr r)]) rest)
          end
        else
          (Returned PNone,
           mkWorld (self w)
             (events w ++ warn ++ [prompt; EvLog WARNING "Cleanup cancelled"]) rest)
    end.
Proof.
  intros prompt warn rq. subst prompt warn rq.
  unfold invoke, def, body, cleanup, cleanup_warnings, cleanup_request.
  rewrite self_url_bind. cbv zeta.
  unfold mbind, M_bind, input, logger, mret, M_ret, requests_get, requests_call,
    return_, lift, raise, emit.
  repeat case_bool_decide; cbn [self events stdin app];
    (destruct (stdin w) as [|line rest]; [norm_world; reflexivity|]);
    (destruct (String.eqb line "y"); [|norm_world; reflexivity]).
  all: norm_world; rewrite ?exchanges_app; cbn [exchanges omap app]; rewrite ?app_nil_r.
  all: match goal with
       | |- context [respond ?E ?h ?rq] => destruct (respond E h rq) as [e|r]
       end.
  all: norm_world; reflexivity.
Qed.

(** ** What a call appends to the trace *)

Lemma new_events_intro E c w s evs lines :
  (invoke E c w).2 = mkWorld s (events w ++ evs) lines → new_events E c w = evs.
Proof. unfold new_events. intros ->. cbn. by rewrite drop_app_length. Qed.

Lemma exchanges_decodes ds : exchanges (EvDecode <$> ds) = [].
Proof. by induction ds. Qed.

Lemma decoder_calls_decodes ds : decoder_calls (EvDecode <$> ds) = ds.
Proof. induction ds; [done|]. cbn. by f_equal. Qed.

Lemma request_of_url E u c rq :
  request_of E u c = Some rq → req_url rq = u +:+ endpoint (method_of c).
Proof. destruct c; cbn; intros [= <-]; done. Qed.

(** A decoding method: its only exchange, its decoder calls, its outcome. *)
Lemma decoding_summary E c w d :
  decoding_of (method_of c) = Some d →
  ∃ rq rp,
    request_of E (url (self w)) c = Some rq ∧
    rp = respond E (exchanges (events w)) rq ∧
    issued E c w = [(rq, rp)] ∧
    decoder_calls (new_events E c w)
      = match rp with inr r => decode_calls E d r | inl _ => [] end ∧
    (invoke E c w).1
      = match rp with inr r => decoded E (method_of c) d r | inl e => Raised e end ∧
    self (invoke E c w).2 = self w.
Proof.
  intros Hd. destruct (invoke_decoding E c w d Hd) as (rq & Hurl & Heq).
  exists rq, (respond E (exchanges (events w)) rq). split; [done|]. split; [done|].
  unfold issued.
  destruct (respond E (exchanges (events w)) rq) as [e|r];
    (erewrite new_events_intro by (rewrite Heq; reflexivity)); rewrite Heq; cbn.
  - done.
  - by rewrite exchanges_decodes, decoder_calls_decodes.
Qed.

Lemma issued_decoding E c w d rq :
  decoding_of (method_of c) = Some d →
  request_of E (url (self w)) c = Some rq →
  issued E c w = [(rq, respond E (exchanges (events w)) rq)].
Proof.
  intros Hd Hrq.
  destruct (decoding_summary E c w d Hd) as (rq' & rp & Hrq' & -> & -> & _).
  congruence.
Qed.

(** [cleanup]: the prompt decides. *)
Lemma cleanup_summary E name target w :
  let c := Cleanup name target in
  let rq := cleanup_request (url (self w)) name target in
  decoder_calls (new_events E c w) = [] ∧
  self (invoke E c w).2 = self w ∧
  match stdin w with
  | [] => issued E c w = [] ∧ (invoke E c w).1 = Raised EOFError
  | line :: rest =>
      if String.eqb line "y" then
        ∃ rp, rp = respond E (exchanges (events w)) rq ∧
          issued E c w = [(rq, rp)] ∧
          (invoke E c w).1
            = match rp with inr r => Returned (PStr (text r)) | inl e => Raised e end
      else issued E c w = [] ∧ (invoke E c w).1 = Returned PNone
  end.
Proof.
  intros c rq. subst c rq. pose proof (invoke_cleanup E name target w) as Heq.
  cbv zeta in Heq. unfold issued.
  destruct (stdin w) as [|line rest].
  { erewrite new_events_intro by (rewrite Heq; reflexivity). rewrite Heq.
    rewrite !exchanges_app, !decoder_calls_app, exchanges_cleanup_warnings,
      decoder_calls_cleanup_warnings. done. }
  destruct (String.eqb line "y").
  - destruct (respond E (exchanges (events w)) (cleanup_request (url (self w)) name target))
      as [e|r] eqn:Hrp;
      (erewrite new_events_intro by (rewrite Heq; reflexivity)); rewrite Heq;
      rewrite !exchanges_app, !decoder_calls_app, exchanges_cleanup_warnings,
        decoder_calls_cleanup_warnings; cbn; (split; [done|]); (split; [done|]); eauto.
  - erewrite new_events_intro by (rewrite Heq; reflexivity). rewrite Heq.
    rewrite !exchanges_app, !decoder_calls_app, exchanges_cleanup_warnings,
      decoder_calls_cleanup_warnings. done.
Qed.

(** [setup]: a run of the pass over all nine components. *)
Lemma setup_summary E name a w :
  let c := Setup name a in
  ∃ r,
    run E (url (self w) +:+ "/setup") name a component_order ∅
      (exchanges (events w)) r (issued E c w) ∧
    (invoke E c w).1 = finish E r ∧
    decoder_calls (new_events E c w) = [] ∧
    self (invoke E c w).2 = self w.
Proof.
  intros c. subst c. destruct (invoke_setup E name a w) as (evs & r & Heq & Hd & Hrun).
  exists r. unfold issued.
  erewrite new_events_intro by (rewrite Heq; reflexivity). rewrite Heq. done.
Qed.

(** Every call is of one of the three kinds above. *)
Lemma method_kinds c :
  (∃ d, decoding_of (method_of c) = Some d) ∨
  (∃ name target, c = Cleanup name target) ∨
  (∃ name a, c = Setup name a).
Proof. destruct c; cbn; eauto. Qed.

(** ** The requests of [setup] *)

Lemma setup_params_type name a c :
  setup_params name a c !! "type" = Some (JStr (type_name c)).
Proof. by destruct c. Qed.

Lemma type_name_inj c1 c2 : type_name c1 = type_name c2 → c1 = c2.
Proof. by destruct c1, c2. Qed.

Lemma request_for_inj url name a c1 c2 x1 x2 :
  request_for url name a c1 x1 → request_for url name a c2 x2 → x1.1 = x2.1 → c1 = c2.
Proof.
  intros [_ [d1 H1]] [_ [d2 H2]] Heq. rewrite H1, H2 in Heq.
  apply type_name_inj.
  assert (setup_params name a c1 = setup_params name a c2) as Hp
    by (unfold setup_request in Heq; congruence).
  pose proof (setup_params_type name a c1) as Ht. rewrite Hp, setup_params_type in Ht.
  congruence.
Qed.

(** Distinct components, distinct requests. *)
Lemma requests_nodup url name a done xs :
  Forall2 (request_for url name a) done xs → NoDup done → NoDup xs.*1.
Proof.
  induction 1 as [|c x done xs Hcx Hall IH]; intros Hnd; [constructor|].
  apply NoDup_cons in Hnd as [Hc Hnd]. cbn. apply NoDup_cons. split; [|auto].
  intros Hin. apply list_elem_of_fmap in Hin as (x' & Heq & Hx').
  destruct (proj1 (list_elem_of_lookup _ _) Hx') as [i Hi].
  destruct (Forall2_lookup_r _ _ _ _ _ Hall Hi) as (c' & Hc' & Hreq).
  apply Hc. rewrite (request_for_inj _ _ _ _ _ _ _ Hcx Hreq Heq).
  by eapply list_elem_of_lookup_2.
Qed.

Lemma component_order_nodup : NoDup component_order.
Proof. compute_done. Qed.

Lemma plan_nodup a : NoDup (plan a).
Proof. apply NoDup_filter, component_order_nodup. Qed.

Lemma plan_length a : (length (plan a) ≤ 9)%nat.
Proof. apply (length_filter (λ c, supplied a c = true) component_order). Qed.

Lemma plan_split a cs1 c cs2 :
  component_order = cs1 ++ c :: cs2 → supplied a c = true →
  plan a = filter (λ c, supplied a c = true) cs1
           ++ c :: filter (λ c, supplied a c = true) cs2.
Proof.
  intros Heq Hs. unfold plan. rewrite Heq, filter_app, filter_cons_True by done. done.
Qed.

Lemma rejected_energy a c :
  rejected a c = true → c = EnergyCalculation ∧ energy_rejected a = true.
Proof. by destruct c. Qed.

(** The requests of [setup]: an initial segment of the plan. *)
Lemma setup_requests E name a w :
  ∃ done, done `prefix_of` plan a ∧
    Forall2 (request_for (url (self w) +:+ "/setup") name a) done
      (issued E (Setup name a) w).
Proof.
  destruct (setup_summary E name a w) as (r & Hrun & _).
  by apply run_requests in Hrun.
Qed.

(** Every request goes to the method's endpoint under [self.url]. *)
Lemma issued_urls E c w :
  Forall (λ x, req_url x.1 = url (self w) +:+ endpoint (method_of c)) (issued E c w).
Proof.
  destruct (method_kinds c) as [[d Hd]|[(name & target & ->)|(name & a & ->)]].
  - destruct (decoding_summary E c w d Hd) as (rq & rp & Hrq & _ & -> & _).
    apply request_of_url in Hrq. by repeat constructor.
  - pose proof (cleanup_summary E name target w) as (_ & _ & H). cbv zeta in H.
    destruct (stdin w) as [|line rest].
    + destruct H as [-> _]. constructor.
    + destruct (String.eqb line "y").
      * destruct H as (rp & _ & -> & _). by repeat constructor.
      * destruct H as [-> _]. constructor.
  - destruct (setup_requests E name a w) as (done & _ & Hall).
    apply Forall_forall. intros x Hx.
    destruct (proj1 (list_elem_of_lookup _ _) Hx) as [i Hi].
    destruct (Forall2_lookup_r _ _ _ _ _ Hall Hi) as (c' & _ & _ & data & ->). done.
Qed.

(** ** The past of the world *)

Section Past.
Context (E : Env) (h0 : list (Request * reply)).

(** A run against the server after [h0] is a run that starts after [h0]. *)
Lemma run_after url name a cs success h r xs :
  run (after h0 E) url name a cs success h r xs →
  run E url name a cs success (h0 ++ h) r xs.
Proof.
  induction 1 as [success h|c cs success h r xs Hs _ IH|c cs success h Hs Hr
    |c cs success h e Hs Hr Hp|c cs success h data e Hs Hr Hp Hrp
    |c cs success h data response Hs Hr Hp Hrp Hok
    |c cs success h data response r xs Hs Hr Hp Hrp Hok _ IH].
  - constructor.
  - by apply run_skip.
  - by apply run_rejected.
  - by apply run_unprepared.
  - by apply run_unanswered.
  - by apply run_refused.
  - apply run_accepted; try done. by rewrite <- app_assoc.
Qed.

End Past.

Lemma run_deterministic E url name a cs success h r1 xs1 r2 xs2 :
  run E url name a cs success h r1 xs1 →
  run E url name a cs success h r2 xs2 →
  r1 = r2 ∧ xs1 = xs2.
Proof.
  intros H1. revert r2 xs2.
  induction H1 as [success h|c cs success h r xs Hs _ IH|c cs success h Hs Hr
    |c cs success h e Hs Hr Hp|c cs success h data e Hs Hr Hp Hrp
    |c cs success h data response Hs Hr Hp Hrp Hok
    |c cs success h data response r xs Hs Hr Hp Hrp Hok _ IH];
    intros r2 xs2 H2; inversion H2; subst; try congruence; auto;
    repeat match goal with
    | H1 : ?t = inr ?x, H2 : ?t = inr ?y |- _ =>
        assert (y = x) as -> by congruence; clear H2
    | H1 : ?t = inl ?x, H2 : ?t = inl ?y |- _ =>
        assert (y = x) as -> by congruence; clear H2
    end; try congruence; try done.
  match goal with H : run _ _ _ _ _ _ _ _ _ |- _ => by destruct (IH _ _ H) as [-> ->] end.
Qed.

(** A call behaves as the first call of a client with the same attributes
    would, against the server in its present state. *)
Lemma invoke_past E c w :
  let E0 := after (exchanges (events w)) E in
  let w0 := mkWorld (self w) [] (stdin w) in
  (invoke E c w).1 = (invoke E0 c w0).1 ∧ issued E c w = issued E0 c w0.
Proof.
  intros E0 w0.
  destruct (method_kinds c) as [[d Hd]|[(name & target & ->)|(name & a & ->)]].
  - destruct (decoding_summary E c w d Hd) as (rq & rp & Hrq & -> & -> & _ & -> & _).
    destruct (decoding_summary E0 c w0 d Hd) as (rq0 & rp0 & Hrq0 & -> & -> & _ & -> & _).
    assert (rq0 = rq) as ->.
    { assert (request_of E0 (url (self w)) c = request_of E (url (self w)) c) as Heq
        by (by destruct c).
      cbn in Hrq0. congruence. }
    subst E0 w0. cbn. rewrite app_nil_r. done.
  - pose proof (cleanup_summary E name target w) as (_ & _ & H).
    pose proof (cleanup_summary E0 name target w0) as (_ & _ & H0).
    cbv zeta in H, H0. subst E0 w0.
    cbn [stdin self events exchanges omap respond after] in H0.
    rewrite app_nil_r in H0.
    destruct (stdin w) as [|line rest]; [destruct H as [-> ->]; by destruct H0 as [-> ->]|].
    destruct (String.eqb line "y").
    + destruct H as (rp & -> & -> & ->), H0 as (rp0 & -> & -> & ->). done.
    + destruct H as [-> ->]; by destruct H0 as [-> ->].
  - destruct (setup_summary E name a w) as (r & Hrun & -> & _).
    destruct (setup_summary E0 name a w0) as (r0 & Hrun0 & -> & _).
    subst E0 w0. cbn [self events exchanges omap] in Hrun0.
    apply run_after in Hrun0. rewrite app_nil_r in Hrun0.
    destruct (run_deterministic _ _ _ _ _ _ _ _ _ _ _ Hrun Hrun0) as [-> ->]. done.
Qed.

Lemma payload_carries name (parameters : gmap string json) :
  carries name parameters (parameters ∪ {[ "name" := JStr name ]}).
Proof.
  split; [|split; [|split]].
  - apply lookup_union_is_Some. right. rewrite lookup_singleton_eq. eauto.
  - intros k v Hk. by apply lookup_union_Some_l.
  - rewrite dom_union_L, dom_singleton_L. apply (comm_L (∪)).
  - intros Hn. rewrite lookup_union_r by done. apply lookup_singleton_eq.
Qed.

Lemma decode_calls_nonempty E d r : decode_calls E d r ≠ [].
Proof. destruct d; cbn; [done| |done]. by destruct (response_json E r). Qed.

(** ** Runs against the demo environment *)

Example init_url : url (__init__ "http://localhost" 5000) = "http://localhost:5000".
Proof. reflexivity. Qed.

Example replace_crlf_run :
  replace_crlf ("a" +:+ String CR (String LF "b")) = "a" +:+ String LF "b".
Proof. reflexivity. Qed.

Example subclasses :
  issubclass JSONDecodeError ValueError = true ∧
  issubclass ValueError JSONDecodeError = false ∧
  issubclass EOFError UnpicklingError = false ∧
  issubclass UnpicklingError PickleError = true.
Proof. done. Qed.

Example status_json :
  invoke (Demo.env (Demo.always "{}")) Status (Demo.world [])
  = (Returned (PJson (JDict [])),
     mkWorld (__init__ "http://localhost" 5000)
       [ EvRequest (mkRequest GET "http://localhost:5000/status" None None)
           (inr (mkResponse "{}" "{}"));
         EvDecode (CallResponseJson (mkResponse "{}" "{}")) ]
       []).
Proof. reflexivity. Qed.

Example status_unreachable :
  invoke (Demo.env Demo.unreachable) Status (Demo.world [])
  = (Raised RequestsConnectionError,
     mkWorld (__init__ "http://localhost" 5000)
       [ EvRequest (mkRequest GET "http://localhost:5000/status" None None)
           (inl RequestsConnectionError) ]
       []).
Proof. reflexivity. Qed.

Example results_of_a_dict :
  (invoke (Demo.env (Demo.always "{}")) (Results "s") (Demo.world [])).1
  = Raised ValueError.
Proof. reflexivity. Qed.

Example get_model_runs :
  (invoke (Demo.env (Demo.always "pickle")) (GetModel "s") (Demo.world [])).1
    = Returned (PObject "Building" 2) ∧
  (invoke (Demo.env (Demo.always "no such setup")) (GetModel "s") (Demo.world [])).1
    = Returned (PStr "no such setup") ∧
  (invoke (Demo.env (Demo.always "")) (GetModel "s") (Demo.world [])).1
    = Raised EOFError.
Proof. done. Qed.

Example calculate_name_overridden :
  (λ x, req_params x.1 ≫= (.!! "name")) <$>
    issued (Demo.env (Demo.always "{}"))
      (Calculate "s" {[ "name" := JStr "other"; "x" := JInt 1 ]}) (Demo.world [])
  = [Some (JStr "other")].
Proof. vm_compute. reflexivity. Qed.

Example cleanup_runs :
  invoke (Demo.env (Demo.always "OK")) (Cleanup "s" (Some "results")) (Demo.world ["n"; "y"])
  = (Returned PNone,
     mkWorld (__init__ "http://localhost" 5000)
       [ EvLog WARNING "Result database will be cleared for setup: s";
         EvInput "Are you sure? (y/n): ";
         EvLog WARNING "Cleanup cancelled" ]
       ["y"]) ∧
  (invoke (Demo.env (Demo.always "OK")) (Cleanup "s" None) (Demo.world [])).1
  = Raised EOFError.
Proof. done. Qed.

Example setup_types :
  (λ x, req_params x.1 ≫= (.!! "type")) <$>
    issued (Demo.env (Demo.always "OK")) (Setup "s" Demo.epw_and_simulation) (Demo.world [])
  = [Some (JStr "epw"); Some (JStr "database"); Some (JStr "energy_calculation")].
Proof. vm_compute. reflexivity. Qed.

Example setup_epw_body :
  (λ x, req_data x.1) <$>
    take 1 (issued (Demo.env (Demo.always "OK")) (Setup "s" Demo.epw_and_simulation)
              (Demo.world []))
  = [Some (PStr ("LOCATION" +:+ String LF ""))].
Proof. vm_compute. reflexivity. Qed.

Example setup_refused :
  (invoke (Demo.env (Demo.rejects "epw")) (Setup "s" Demo.epw_and_simulation)
     (Demo.world [])).1 = Returned (PStr "ERROR") ∧
  length (issued (Demo.env (Demo.rejects "epw")) (Setup "s" Demo.epw_and_simulation)
            (Demo.world [])) = 1%nat.
Proof. split; vm_compute; reflexivity. Qed.

Example setup_missing_file :
  invoke (Demo.env (Demo.always "OK"))
    (Setup "s" (mkSetupArgs (Some "missing.epw") None None None None None None None true))
    (Demo.world [])
  = (Raised FileNotFoundError,
     mkWorld (__init__ "http://localhost" 5000)
       [ EvLog INFO "Setting up calculation: s at: http://localhost:5000";
         EvLog DEBUG "Setting up EPW on server" ]
       []).
Proof. reflexivity. Qed.

(** * The specification, statement by statement *)

(** ** C1: decode failures *)

(** C1 (as amended).  For each of the twelve methods that decode the
    response, once the server has answered with [r], a decoding that fails
    with exception [e] makes the method return [response.text] exactly when
    [e] is an instance of the class named in the method's [except] clause
    ([ValueError] for [calculate] and [status], [JSONDecodeError] for
    [results], [reinstate], [instate], [get_params], [get_energy] and
    [get_energy_detailed], [dill.UnpicklingError] for [get_model],
    [get_full_params], [get_lca] and [get_cost]); an exception of any other
    class propagates to the caller. *)
Theorem decode_failure_outcome E c w d rq r e :
  decoding_of (method_of c) = Some d →
  issued E c w = [(rq, inr r)] →
  decode E d r = inl e →
  (invoke E c w).1 =
    if issubclass e (except_class (method_of c))
    then Returned (PStr (text r)) else Raised e.
Proof.
  intros Hd Hx He.
  destruct (decoding_summary E c w d Hd) as (rq' & rp & _ & _ & Hx' & _ & Hres & _).
  rewrite Hx' in Hx. injection Hx as -> ->. rewrite Hres. unfold decoded. by rewrite He.
Qed.

(** [status()] against a server that answers ['busy']: [response.json()]
    raises [JSONDecodeError], a [ValueError], and the text comes back. *)
Lemma decode_failure_outcome_witness :
  (invoke (Demo.env (Demo.always "busy")) Status (Demo.world [])).1
  = Returned (PStr "busy").
Proof.
  apply (decode_failure_outcome (Demo.env (Demo.always "busy")) Status (Demo.world [])
           AsJson (mkRequest GET "http://localhost:5000/status" None None)
           (mkResponse "busy" "busy") JSONDecodeError);
    reflexivity.
Defined.

(** C1 as stated fails: [get_model('s')] on an empty body.  [dill.loads]
    raises [EOFError], which [except dill.UnpicklingError] does not catch. *)
Lemma decode_failure_may_raise :
  ¬ returns_text_on_decode_failure (Demo.env (Demo.always "")) (GetModel "s")
      (Demo.world []).
Proof.
  intros H.
  specialize (H AsObject
    (mkRequest GET "http://localhost:5000/model" (Some {[ "name" := JStr "s" ]}) None)
    (mkResponse "" "") EOFError eq_refl).
  discriminate H; reflexivity.
Qed.

(** ** C2: requests per call *)

(** C2 (as amended).  A call of any of the twelve decoding methods performs
    exactly one HTTP request; [cleanup] performs one when the line read from
    the console is ['y'] and none otherwise; [setup] performs at most one
    request per supplied component, hence at most nine.  Within a call no
    request is issued twice, and a request on which the transport raised is
    the last one of the call: nothing is retried. *)
Theorem requests_per_call E c w :
  match c with
  | Setup _ a => (length (issued E c w) ≤ length (plan a) ∧ length (plan a) ≤ 9)%nat
  | Cleanup _ _ =>
      length (issued E c w) =
        match stdin w with
        | line :: _ => if String.eqb line "y" then 1%nat else 0%nat
        | [] => 0%nat
        end
  | _ => length (issued E c w) = 1%nat
  end ∧
  NoDup (issued E c w).*1 ∧
  ∀ i rq e, issued E c w !! i = Some (rq, inl e) → S i = length (issued E c w).
Proof.
  destruct (method_kinds c) as [[d Hd]|[(name & target & ->)|(name & a & ->)]].
  - destruct (decoding_summary E c w d Hd) as (rq & rp & _ & _ & Hx & _).
    rewrite Hx. split; [by destruct c|]. split.
    + cbn. apply NoDup_singleton.
    + by intros [|i].
  - pose proof (cleanup_summary E name target w) as (_ & _ & H). cbv zeta in H.
    destruct (stdin w) as [|line rest]; [destruct H as [-> _]|
      destruct (String.eqb line "y"); [destruct H as (rp & _ & -> & _)|destruct H as [-> _]]];
      (split; [done|]); (split; [cbn; try apply NoDup_singleton; constructor|]);
      by intros [|i].
  - destruct (setup_requests E name a w) as (done & Hpre & Hall).
    destruct (setup_summary E name a w) as (r & Hrun & _).
    split; [split; [|apply plan_length]|split].
    + rewrite <- (Forall2_length _ _ _ Hall). by apply prefix_length.
    + apply (requests_nodup _ _ _ _ _ Hall).
      destruct Hpre as [k Hk]. pose proof (plan_nodup a) as Hnd.
      rewrite Hk in Hnd. by apply NoDup_app in Hnd as [? _].
    + intros i rq e Hi. by destruct (run_failure_last _ _ _ _ _ _ _ _ _ Hrun i _ Hi).
Qed.

(** C2 as stated fails both ways: [cleanup] answered ['n'] sends nothing,
    and [setup] with a weather file and [init_db] sends two requests. *)
Lemma not_one_request :
  ¬ one_request (Demo.env (Demo.always "OK")) (Cleanup "s" None) (Demo.world ["n"]) ∧
  ¬ one_request (Demo.env (Demo.always "OK"))
      (Setup "s" (mkSetupArgs (Some "weather.epw") None None None None None None None true))
      (Demo.world []).
Proof. split; intros H; vm_compute in H; discriminate H. Qed.

(** ** C3: the methods and their endpoints *)

(** C3 (as amended).  The module defines one class, [RemoteClient], which
    exposes exactly fourteen public request methods; their endpoint paths
    are, in order, the fourteen paths of the family, pairwise distinct; and
    every request a call issues goes to the one path of its method, appended
    to [self.url]. *)
Theorem fourteen_methods_one_endpoint_each :
  (length classes = 1%nat ∧ ∀ k : py_class, k ∈ classes) ∧
  NoDup methods ∧ (∀ m, m ∈ methods) ∧ length methods = 14%nat ∧
  endpoint <$> methods = endpoint_family ∧ NoDup endpoint_family ∧
  ∀ E c w,
    Forall (λ x, req_url x.1 = url (self w) +:+ endpoint (method_of c)) (issued E c w).
Proof.
  split; [split; [done|intros []; apply list_elem_of_here]|].
  split; [compute_done|]. split; [intros []; compute_done|].
  split; [done|]. split; [done|]. split; [compute_done|]. apply issued_urls.
Qed.

(** C3 as stated fails: the methods are not thirteen. *)
Lemma not_thirteen_methods : ¬ thirteen_methods.
Proof. unfold thirteen_methods. compute_done. Qed.

(** ** C4: decodings per call *)

(** C4 (as amended).  A call of a method other than [setup] and [cleanup]
    issues one request and, when it is answered, attempts exactly one
    decoding of the response, of the kind fixed by the method: JSON
    ([response.json()]), tabular ([pd.read_json] of the JSON payload, reached
    only if [response.json()] succeeds) or object ([dill.loads] of the raw
    content).  [setup] and [cleanup] call no decoder at all. *)
Theorem decoding_attempts E c w :
  match decoding_of (method_of c) with
  | Some d =>
      ∃ rq rp, issued E c w = [(rq, rp)] ∧
        decoder_calls (new_events E c w)
          = match rp with inr r => decode_calls E d r | inl _ => [] end
  | None => decoder_calls (new_events E c w) = []
  end.
Proof.
  destruct (method_kinds c) as [[d Hd]|[(name & target & ->)|(name & a & ->)]].
  - rewrite Hd. destruct (decoding_summary E c w d Hd) as (rq & rp & _ & _ & Hx & Hdc & _).
    by exists rq, rp.
  - apply cleanup_summary.
  - by destruct (setup_summary E name a w) as (r & _ & _ & ? & _).
Qed.

(** C4 as stated fails: a confirmed [cleanup] gets its answer and decodes
    nothing. *)
Lemma cleanup_decodes_nothing :
  ¬ decodes_once (Demo.env (Demo.always "OK")) (Cleanup "s" None) (Demo.world ["y"]).
Proof.
  intros (d & r & H). symmetry in H. by apply decode_calls_nonempty in H.
Qed.

(** ** C5: the client object *)

(** C5.  No call changes the client object: [host], [port] and [url] are
    afterwards what [__init__] made them.  And no call depends on what
    earlier calls did to the client: its outcome and its HTTP exchanges are
    those of the same call made first, on a client with the same
    attributes, against the server in its present state. *)
Theorem client_state_untouched E c w :
  self (invoke E c w).2 = self w ∧
  (∀ h p, self w = __init__ h p →
     host (self (invoke E c w).2) = h ∧ port (self (invoke E c w).2) = p ∧
     url (self (invoke E c w).2) = h +:+ ":" +:+ pretty p) ∧
  let E0 := after (exchanges (events w)) E in
  let w0 := mkWorld (self w) [] (stdin w) in
  (invoke E c w).1 = (invoke E0 c w0).1 ∧ issued E c w = issued E0 c w0.
Proof.
  assert (self (invoke E c w).2 = self w) as Hself.
  { destruct (method_kinds c) as [[d Hd]|[(name & target & ->)|(name & a & ->)]].
    - by destruct (decoding_summary E c w d Hd) as (rq & rp & _ & _ & _ & _ & _ & ?).
    - apply cleanup_summary.
    - by destruct (setup_summary E name a w) as (r & _ & _ & _ & ?). }
  split; [done|]. split; [|apply invoke_past].
  intros h p Hinit. rewrite Hself, Hinit. done.
Qed.

(** ** C6: the URL of a request *)

(** C6.  On a client built by [__init__(host, port)], every request of every
    call goes to ['<host>:<port>'] followed by the endpoint path of the
    method; the arguments of the call have no part in it. *)
Theorem request_url E c host port evs lines :
  Forall (λ x, req_url x.1 = (host +:+ ":" +:+ pretty port) +:+ endpoint (method_of c))
    (issued E c (mkWorld (__init__ host port) evs lines)).
Proof. apply (issued_urls E c (mkWorld (__init__ host port) evs lines)). Qed.

(** ** C7: calculate, instate, reinstate *)

(** C7.  [calculate] and [instate] send one request, to [/calculate] and
    [/instate], whose query parameters have the key ['name'] and every entry
    of [parameters] ([instate] posts the serialised [options] when given);
    [reinstate] sends one request to [/reinstate] whose query parameters are
    exactly ['name'] and ['id'].  The three paths differ. *)
Theorem evaluation_modes E name parameters options calc_id w :
  let u := url (self w) in
  (∃ payload rp,
     issued E (Calculate name parameters) w
       = [(mkRequest GET (u +:+ "/calculate") (Some payload) None, rp)] ∧
     carries name parameters payload) ∧
  (∃ payload rp,
     issued E (Instate name parameters options) w
       = [(mkRequest (match options with Some _ => POST | None => GET end)
             (u +:+ "/instate") (Some payload)
             (match options with Some o => Some (PStr (json_dumps E o)) | None => None end),
           rp)] ∧
     carries name parameters payload) ∧
  (∃ rp,
     issued E (Reinstate name calc_id) w
       = [(mkRequest GET (u +:+ "/reinstate")
             (Some {[ "name" := JStr name; "id" := JStr calc_id ]}) None, rp)]) ∧
  NoDup [endpoint m_calculate; endpoint m_instate; endpoint m_reinstate].
Proof.
  intros u. subst u. split; [|split; [|split]].
  - eexists _, _. split; [|apply payload_carries].
    by apply (issued_decoding E (Calculate name parameters) w AsJson).
  - eexists _, _. split; [|apply payload_carries].
    by apply (issued_decoding E (Instate name parameters options) w AsJson).
  - eexists. by apply (issued_decoding E (Reinstate name calc_id) w AsJson).
  - compute_done.
Qed.

(** ** C8: the order of [setup] *)

(** C8 (as amended).  [setup] issues the requests of an initial segment of
    its plan, the plan being the supplied components in the order epw,
    weather_data, idf, model, parameters, lca_calculation, cost_calculation,
    database, energy_calculation (database exactly when [init_db] is true);
    a request that is not answered with a text starting with ['OK'] is the
    last one, and [setup] returns that text (or lets the transport's
    exception through); and, provided the energy type is absent, empty,
    ['simulation'] or ['steady_state'], when every issued request is
    accepted, either a local preparation raised, or the whole plan was
    served and [setup] returns a newline followed by [pformat] of the dict
    of the answers. *)
Theorem setup_order_and_outcome E name a w :
  let c := Setup name a in
  let u := url (self w) +:+ "/setup" in
  (type_name <$> component_order
     = [ "epw"; "weather_data"; "idf"; "model"; "parameters"; "lca_calculation";
         "cost_calculation"; "database"; "energy_calculation" ] ∧
   plan a `sublist_of` component_order ∧
   (∀ k, k ∈ plan a ↔ supplied a k = true) ∧
   (Database ∈ plan a ↔ a_init_db a = true)) ∧
  (∃ done, done `prefix_of` plan a ∧ Forall2 (request_for u name a) done (issued E c w)) ∧
  (∀ i x, issued E c w !! i = Some x → ok_reply x.2 = false →
     S i = length (issued E c w) ∧
     (invoke E c w).1
       = match x.2 with
         | inr response => Returned (PStr (text response))
         | inl e => Raised e
         end) ∧
  (energy_rejected a = false →
   Forall (λ x, ok_reply x.2 = true) (issued E c w) →
     (∃ e done k rest,
        (invoke E c w).1 = Raised e ∧ plan a = done ++ k :: rest ∧
        payload E a k = inl e ∧ Forall2 (request_for u name a) done (issued E c w))
     ∨ (Forall2 (request_for u name a) (plan a) (issued E c w) ∧
        (invoke E c w).1
          = Returned (PStr (String LF "" +:+
              pformat E (foldl record_success ∅ (zip (plan a) (issued E c w))))))).
Proof.
  intros c u. subst c u.
  destruct (setup_summary E name a w) as (r & Hrun & Hres & _).
  split; [|split; [|split]].
  - split; [done|]. split; [apply sublist_filter|].
    assert (∀ k, k ∈ plan a ↔ supplied a k = true) as Hplan.
    { intros k. unfold plan. rewrite list_elem_of_filter.
      split; [by intros [? _]|]. intros ?. split; [done|]. destruct k; compute_done. }
    split; [done|]. apply Hplan.
  - apply setup_requests.
  - intros i x Hi Hx.
    destruct (run_failure_last _ _ _ _ _ _ _ _ _ Hrun i x Hi Hx) as [Hlen ->].
    split; [done|]. rewrite Hres. by destruct (x.2).
  - intros Hen Hall. apply (run_all_accepted _ _ _ _ _ _ _ _ _ Hrun) in Hall.
    rewrite Hres. destruct r as [success|v|e]; cbn [finish].
    + right. by destruct Hall as [? ->].
    + destruct Hall as (_ & cs1 & k & cs2 & _ & _ & Hr & _).
      apply rejected_energy in Hr as [_ Hr]. congruence.
    + left. destruct Hall as (cs1 & k & cs2 & Heq & Hs & Hp & Hreq).
      exists e, (filter (λ c, supplied a c = true) cs1), k,
        (filter (λ c, supplied a c = true) cs2).
      split; [done|]. split; [by apply plan_split|]. done.
Qed.

(** A weather file, the database and the energy type ['simulation'], all
    accepted: the dict of the three answers comes back. *)
Lemma setup_order_and_outcome_witness :
  let E := Demo.env (Demo.always "OK") in
  let w := Demo.world [] in
  (invoke E (Setup "s" Demo.epw_and_simulation) w).1
  = Returned (PStr (String LF "" +:+
      pformat E (foldl record_success ∅
                   (zip (plan Demo.epw_and_simulation)
                        (issued E (Setup "s" Demo.epw_and_simulation) w))))).
Proof.
  intros E w.
  destruct (setup_order_and_outcome E "s" Demo.epw_and_simulation w)
    as (_ & _ & _ & H).
  destruct (H eq_refl) as [(e & done & k & rest & Hres & _)|[_ Hres]].
  - vm_compute. repeat constructor.
  - vm_compute in Hres. discriminate Hres.
  - exact Hres.
Defined.

(** C8 as stated fails: with the energy type ['bogus'] the database request
    is issued and accepted, and [setup] returns the fixed message, not the
    dict. *)
Lemma energy_check_preempts_success :
  ¬ success_when_all_accepted (Demo.env (Demo.always "OK")) "s"
      (Demo.only_energy "bogus") (Demo.world []).
Proof.
  intros H. destruct H as [success H].
  - vm_compute. repeat constructor.
  - assert ((invoke (Demo.env (Demo.always "OK"))
               (Setup "s" (Demo.only_energy "bogus")) (Demo.world [])).1
            = Returned (PStr energy_message)) as Hres
      by (vm_compute; reflexivity).
    rewrite Hres in H. unfold energy_message in H. cbn [String.append] in H.
    discriminate H.
Qed.

(** ** C9: the confirmation of [cleanup] *)

(** C9 (as amended).  Given a line on the console, [cleanup] issues its
    request exactly when the line is ['y']; it then returns the text of the
    answer when the request is answered, and lets the transport's exception
    through when it is not; on any other line it issues nothing and returns
    [None], which is not a [str]. *)
Theorem cleanup_confirmation E name target w line rest :
  stdin w = line :: rest →
  let c := Cleanup name target in
  (issued E c w ≠ [] ↔ line = "y") ∧
  (line = "y" →
     ∃ rp, issued E c w = [(cleanup_request (url (self w)) name target, rp)] ∧
       (invoke E c w).1
         = match rp with inr r => Returned (PStr (text r)) | inl e => Raised e end) ∧
  (line ≠ "y" → issued E c w = [] ∧ (invoke E c w).1 = Returned PNone) ∧
  (∀ s, PNone ≠ PStr s).
Proof.
  intros Hin c. subst c.
  pose proof (cleanup_summary E name target w) as (_ & _ & H). cbv zeta in H.
  rewrite Hin in H. destruct (String.eqb_spec line "y") as [->|Hne].
  - destruct H as (rp & _ & Hx & Hres). rewrite Hx.
    split; [done|]. split; [eauto|]. split; [done|]. done.
  - destruct H as [Hx Hres]. rewrite Hx.
    split; [split; done|]. split; [done|]. split; done.
Qed.

(** [cleanup('s', 'results')] confirmed with ['y']. *)
Lemma cleanup_confirmation_witness :
  let E := Demo.env (Demo.always "OK") in
  let c := Cleanup "s" (Some "results") in
  let w := Demo.world ["y"] in
  (issued E c w ≠ [] ↔ "y" = "y") ∧
  ("y" = "y" →
     ∃ rp, issued E c w = [(cleanup_request (url (self w)) "s" (Some "results"), rp)] ∧
       (invoke E c w).1
         = match rp with inr r => Returned (PStr (text r)) | inl e => Raised e end) ∧
  ("y" ≠ "y" → issued E c w = [] ∧ (invoke E c w).1 = Returned PNone) ∧
  (∀ s, PNone ≠ PStr s).
Proof.
  exact (cleanup_confirmation (Demo.env (Demo.always "OK")) "s" (Some "results")
           (Demo.world ["y"]) "y" [] eq_refl).
Defined.

(** C9 as stated fails: [cleanup] confirmed with ['y'] when the server
    cannot be reached.  The request is issued, [requests.get] raises, and
    no response text is returned. *)
Lemma confirmed_cleanup_may_raise :
  ¬ returns_text_iff_confirmed (Demo.env Demo.unreachable) "s" None (Demo.world ["y"]).
Proof.
  intros H. destruct (proj1 (H "y" [] eq_refl) eq_refl) as (rq & r & _ & Hres).
  vm_compute in Hres. discriminate Hres.
Qed.

(** ** C10: the energy type check *)

(** C10 (as amended).  When the energy type is a non-empty string other than
    ['simulation'] and ['steady_state'], [setup] never sends an
    energy_calculation request; and when every request it issues is
    accepted, then, unless a local preparation raised, it returns the fixed
    message after having sent the requests of all the supplied components
    before the energy block, the database one included when [init_db] is
    true. *)
Theorem energy_type_checked_last E name a w :
  energy_rejected a = true →
  let c := Setup name a in
  let u := url (self w) +:+ "/setup" in
  Forall (λ x, req_params x.1 ≫= (.!! "type") ≠ Some (JStr "energy_calculation"))
    (issued E c w) ∧
  (Forall (λ x, ok_reply x.2 = true) (issued E c w) →
     (∃ e k, (invoke E c w).1 = Raised e ∧ k ∈ before_energy ∧ supplied a k = true ∧
             payload E a k = inl e)
     ∨ ((invoke E c w).1 = Returned (PStr energy_message) ∧
        Forall2 (request_for u name a)
          (filter (λ k, supplied a k = true) before_energy) (issued E c w))).
Proof.
  intros Hen c u. subst c u.
  destruct (setup_summary E name a w) as (r & Hrun & Hres & _).
  split.
  - destruct (setup_requests E name a w) as (done & _ & Hall).
    apply Forall_forall. intros x Hx.
    destruct (proj1 (list_elem_of_lookup _ _) Hx) as [i Hi].
    destruct (Forall2_lookup_r _ _ _ _ _ Hall Hi) as (k & _ & Hr & data & ->).
    cbn. rewrite setup_params_type. intros [= Ht].
    apply (type_name_inj k EnergyCalculation) in Ht as ->. cbn in Hr. congruence.
  - intros Hall. apply (run_all_accepted _ _ _ _ _ _ _ _ _ Hrun) in Hall.
    rewrite Hres. destruct r as [success|v|e]; cbn [finish].
    + destruct Hall as [Hreq _].
      assert (EnergyCalculation ∈ filter (λ c, supplied a c = true) component_order) as Hin.
      { apply list_elem_of_filter. split; [|compute_done].
        unfold energy_rejected in Hen. cbn.
        destruct (a_energy_calculation a); [|done]. by apply andb_prop in Hen as [? _]. }
      destruct (proj1 (list_elem_of_lookup _ _) Hin) as [i Hi].
      destruct (Forall2_lookup_l _ _ _ _ _ Hreq Hi) as (x & _ & Hr & _).
      cbn in Hr. congruence.
    + right. destruct Hall as (-> & cs1 & k & cs2 & Heq & _ & Hr & Hreq).
      split; [done|]. apply rejected_energy in Hr as [-> _].
      assert (cs1 = before_energy) as ->; [|done].
      unfold component_order in Heq.
      repeat (destruct cs1 as [|? cs1]; simplify_eq/=; try done).
    + left. destruct Hall as (cs1 & k & cs2 & Heq & Hs & Hp & _).
      exists e, k. split; [done|]. split; [|done].
      assert (k ∈ component_order) as Hk by (rewrite Heq; set_solver).
      destruct k; try compute_done. discriminate Hp.
Qed.

(** [setup('s', energy_calculation='bogus')] against a server that accepts
    everything: the database request goes out, then the fixed message. *)
Lemma energy_type_checked_last_witness :
  let E := Demo.env (Demo.always "OK") in
  let w := Demo.world [] in
  (invoke E (Setup "s" (Demo.only_energy "bogus")) w).1
    = Returned (PStr energy_message) ∧
  length (issued E (Setup "s" (Demo.only_energy "bogus")) w) = 1%nat.
Proof.
  intros E w.
  destruct (energy_type_checked_last E "s" (Demo.only_energy "bogus") w eq_refl) as [_ H].
  destruct H as [(e & k & Hres & _)|[Hres Hreq]].
  - vm_compute. repeat constructor.
  - vm_compute in Hres. discriminate Hres.
  - split; [exact Hres|]. vm_compute. reflexivity.
Defined.

(** C10 as stated fails: when the server refuses the database request,
    [setup] returns ['ERROR'] and the type check is never reached. *)
Lemma refused_request_preempts_energy_check :
  ¬ rejects_energy_type (Demo.env (Demo.rejects "database")) "s"
      (Demo.only_energy "bogus") (Demo.world []).
Proof. intros H. specialize (H eq_refl). vm_compute in H. discriminate H. Qed.

(** * Further properties of the code *)


(** X1.  Whatever its class, an exception raised by the transport on a
    request of a call is the outcome of the call: the requests are made
    outside the [try] blocks, so no [except] clause applies to them. *)
Theorem transport_failure_propagates E c w i rq e :
  issued E c w !! i = Some (rq, inl e) →
  (invoke E c w).1 = Raised e.
Proof.
  intros Hi.
  destruct (method_kinds c) as [[d Hd]|[(name & target & ->)|(name & a & ->)]].
  - destruct (decoding_summary E c w d Hd) as (rq' & rp & _ & _ & Hx & _ & Hres & _).
    rewrite Hx in Hi. destruct i; [|done]. injection Hi as -> ->. done.
  - pose proof (cleanup_summary E name target w) as (_ & _ & H). cbv zeta in H.
    destruct (stdin w) as [|line rest]; [destruct H as [Hx _]; by rewrite Hx in Hi|].
    destruct (String.eqb line "y"); [|destruct H as [Hx _]; by rewrite Hx in Hi].
    destruct H as (rp & _ & Hx & Hres). rewrite Hx in Hi.
    destruct i; [|done]. injection Hi as _ ->. done.
  - destruct (setup_summary E name a w) as (r & Hrun & Hres & _).
    destruct (run_failure_last _ _ _ _ _ _ _ _ _ Hrun i _ Hi eq_refl) as [_ ->].
    by rewrite Hres.
Qed.

Lemma transport_failure_propagates_witness :
  (invoke (Demo.env Demo.unreachable) (GetParams "s") (Demo.world [])).1
  = Raised RequestsConnectionError.
Proof.
  apply (transport_failure_propagates (Demo.env Demo.unreachable) (GetParams "s")
           (Demo.world []) 0%nat
           (mkRequest GET "http://localhost:5000/parameters"
              (Some {[ "name" := JStr "s" ]}) None)).
  reflexivity.
Defined.

(** X2.  When the decoding of the answer succeeds, the decoded value is
    returned and [response.text] plays no part; [get_full_params] returns
    the list of the values of the unpickled dict instead, and an exception
    raised while listing them is subject to the same [except] clause. *)
Theorem decode_success_outcome E c w d rq r v :
  decoding_of (method_of c) = Some d →
  issued E c w = [(rq, inr r)] →
  decode E d r = inr v →
  (invoke E c w).1 =
    match c with
    | GetFullParams _ =>
        match dict_values E v with
        | inr params => Returned params
        | inl e => if issubclass e UnpicklingError then Returned (PStr (text r)) else Raised e
        end
    | _ => Returned v
    end.
Proof.
  intros Hd Hx Hv.
  destruct (decoding_summary E c w d Hd) as (rq' & rp & _ & _ & Hx' & _ & Hres & _).
  rewrite Hx' in Hx. injection Hx as -> ->. rewrite Hres. unfold decoded. rewrite Hv.
  by destruct c.
Qed.

Lemma decode_success_outcome_witness :
  (invoke (Demo.env (Demo.always "pickle")) (GetLca "s") (Demo.world [])).1
  = Returned (PObject "Building" 2).
Proof.
  apply (decode_success_outcome (Demo.env (Demo.always "pickle")) (GetLca "s")
           (Demo.world []) AsObject
           (mkRequest GET "http://localhost:5000/lca" (Some {[ "name" := JStr "s" ]}) None)
           (mkResponse "pickle" "pickle"));
    reflexivity.
Defined.


Lemma prompts_app evs1 evs2 : prompts (evs1 ++ evs2) = prompts evs1 ++ prompts evs2.
Proof. apply omap_app. Qed.

Lemma log_records_app evs1 evs2 :
  log_records (evs1 ++ evs2) = log_records evs1 ++ log_records evs2.
Proof. apply omap_app. Qed.

Lemma prompts_decodes ds : prompts (EvDecode <$> ds) = [].
Proof. by induction ds. Qed.

Lemma log_records_decodes ds : log_records (EvDecode <$> ds) = [].
Proof. by induction ds. Qed.

Lemma prompts_cleanup_warnings name target : prompts (cleanup_warnings name target) = [].
Proof. unfold cleanup_warnings. by repeat case_bool_decide. Qed.

(** The world after a decoding method: request and decoder calls only. *)
Lemma decoding_world E c w d :
  decoding_of (method_of c) = Some d →
  stdin (invoke E c w).2 = stdin w ∧
  prompts (new_events E c w) = [] ∧
  log_records (new_events E c w) = [].
Proof.
  intros Hd. destruct (invoke_decoding E c w d Hd) as (rq & _ & Heq).
  destruct (respond E (exchanges (events w)) rq) as [e|r];
    (erewrite new_events_intro by (rewrite Heq; reflexivity)); rewrite Heq; cbn;
    by rewrite ?prompts_decodes, ?log_records_decodes.
Qed.

Lemma cleanup_world E name target w :
  stdin (invoke E (Cleanup name target) w).2 = tail (stdin w) ∧
  prompts (new_events E (Cleanup name target) w) = ["Are you sure? (y/n): "].
Proof.
  pose proof (invoke_cleanup E name target w) as Heq. cbv zeta in Heq.
  destruct (stdin w) as [|line rest].
  { erewrite new_events_intro by (rewrite Heq; reflexivity). rewrite Heq.
    by rewrite prompts_app, prompts_cleanup_warnings. }
  destruct (String.eqb line "y");
    [destruct (respond E (exchanges (events w)) (cleanup_request (url (self w)) name target))|];
    (erewrite new_events_intro by (rewrite Heq; reflexivity)); rewrite Heq;
    by rewrite prompts_app, prompts_cleanup_warnings.
Qed.

Section Quiet.
Context (E : Env) (url name : string) (a : setup_args).

Lemma component_step_quiet c success w :
  ∃ evs r, component_step E url name a c success w
           = (r, mkWorld (self w) (events w ++ evs) (stdin w)) ∧
    prompts evs = [].
Proof.
  unfold component_step.
  destruct (supplied a c).
  2:{ exists [], (Normal success). rewrite app_nil_r. by destruct w. }
  destruct (rejected a c).
  { exists [], (Return (PStr energy_message)). rewrite app_nil_r. by destruct w. }
  rewrite logger_bind.
  destruct (payload E a c) as [e|data].
  { rewrite lift_inl_bind. by eexists [_], _. }
  rewrite lift_inr_bind. unfold requests_post. rewrite requests_call_bind.
  destruct (respond E _ _) as [e|response].
  - eexists [_; _], _. split; [unfold emit; cbn; by rewrite <- app_assoc|done].
  - rewrite logger_bind.
    destruct (startswith (text response) "OK"); cbn [negb];
      eexists [_; _; _], _;
      (split; [unfold emit, return_, mret, M_ret; cbn; rewrite <- !app_assoc; reflexivity|done]).
Qed.

Lemma run_components_quiet cs : ∀ success w,
  ∃ evs r, run_components E url name a cs success w
           = (r, mkWorld (self w) (events w ++ evs) (stdin w)) ∧
    prompts evs = [].
Proof.
  induction cs as [|c cs IH]; intros success w.
  { exists [], (Normal success). rewrite app_nil_r. by destruct w. }
  cbn [run_components]. unfold mbind, M_bind.
  destruct (component_step_quiet c success w) as (evs1 & r1 & -> & Hq1).
  destruct r1 as [success'|v|e]; [|by eexists evs1, _..].
  destruct (IH success' (mkWorld (self w) (events w ++ evs1) (stdin w)))
    as (evs & r & -> & Hq).
  cbn [self events stdin]. exists (evs1 ++ evs), r. rewrite app_assoc.
  split; [done|]. by rewrite prompts_app, Hq1, Hq.
Qed.

End Quiet.

Lemma setup_world E name a w :
  stdin (invoke E (Setup name a) w).2 = stdin w ∧
  prompts (new_events E (Setup name a) w) = [] ∧
  head (log_records (new_events E (Setup name a) w))
  = Some (INFO, "Setting up calculation: " +:+ name +:+ " at: " +:+ url (self w)).
Proof.
  assert (∃ evs r, invoke E (Setup name a) w
            = (r, mkWorld (self w)
                    (events w ++
                     EvLog INFO ("Setting up calculation: " +:+ name +:+ " at: "
                                 +:+ url (self w)) :: evs)
                    (stdin w)) ∧ prompts evs = [])
    as (evs & r & Heq & Hq).
  { unfold invoke, def. rewrite setup_unroll. unfold setup_pass.
    rewrite self_url_bind. cbv zeta. rewrite logger_bind.
    set (w1 := emit _ w).
    destruct (run_components_quiet E (url (self w) +:+ "/setup") name a component_order ∅ w1)
      as (evs & r & Heq & Hq).
    unfold mbind, M_bind. rewrite Heq. subst w1. cbn [self events stdin emit].
    exists evs, (finish E r). rewrite <- app_assoc. split; [by destruct r|]. done. }
  erewrite new_events_intro by (rewrite Heq; reflexivity). rewrite Heq. done.
Qed.

(** X3.  [cleanup] prompts exactly once and consumes one line of console
    input (none if there is none); no other method prompts or reads the
    console.  [setup] starts by logging the name of the setup and the URL
    of the client at level INFO; the twelve decoding methods log nothing. *)
Theorem console_and_log E c w :
  match c with
  | Cleanup _ _ =>
      prompts (new_events E c w) = ["Are you sure? (y/n): "] ∧
      stdin (invoke E c w).2 = tail (stdin w)
  | Setup name _ =>
      prompts (new_events E c w) = [] ∧ stdin (invoke E c w).2 = stdin w ∧
      head (log_records (new_events E c w))
      = Some (INFO, "Setting up calculation: " +:+ name +:+ " at: " +:+ url (self w))
  | _ =>
      prompts (new_events E c w) = [] ∧ stdin (invoke E c w).2 = stdin w ∧
      log_records (new_events E c w) = []
  end.
Proof.
  destruct (method_kinds c) as [[d Hd]|[(name & target & ->)|(name & a & ->)]].
  - destruct (decoding_world E c w d Hd) as (? & ? & ?). by destruct c.
  - by destruct (cleanup_world E name target w).
  - by destruct (setup_world E name a w) as (? & ? & ?).
Qed.

(** X4.  [cleanup] does not validate [target]: for a target other than
    ['results'] and ['simulations'] no warning is logged, and once
    confirmed the request is sent with that target all the same. *)
Theorem cleanup_target_not_validated E name t w rest :
  t ≠ "results" → t ≠ "simulations" →
  stdin w = "y" :: rest →
  log_records (new_events E (Cleanup name (Some t)) w) = [] ∧
  ∃ rp,
    issued E (Cleanup name (Some t)) w
    = [(mkRequest GET (url (self w) +:+ "/cleanup")
          (Some {[ "name" := JStr name; "target" := JStr t ]}) None, rp)].
Proof.
  intros Hr Hs Hin.
  pose proof (invoke_cleanup E name (Some t) w) as Heq. cbv zeta in Heq.
  rewrite Hin in Heq. cbn [String.eqb Ascii.eqb Bool.eqb] in Heq.
  assert (cleanup_warnings name (Some t) = []) as Hw.
  { unfold cleanup_warnings.
    rewrite !bool_decide_eq_false_2; [done|intros [[=]|[=]]; done..]. }
  rewrite Hw in Heq. unfold issued.
  destruct (respond E (exchanges (events w)) (cleanup_request (url (self w)) name (Some t)))
    as [e|r];
    (erewrite new_events_intro by (rewrite Heq; reflexivity)); (split; [done|]);
    eexists; reflexivity.
Qed.

Lemma cleanup_target_not_validated_witness :
  log_records (new_events (Demo.env (Demo.always "OK")) (Cleanup "s" (Some "everything"))
                 (Demo.world ["y"])) = [].
Proof.
  apply (cleanup_target_not_validated (Demo.env (Demo.always "OK")) "s" "everything"
           (Demo.world ["y"]) []); done.
Defined.




(** X7.  Omitting [variables] in [get_energy] is the same as passing the
    list of ['heating'], ['cooling'] and ['lights']; an empty list is not
    replaced by the default but sent as it is. *)
Theorem get_energy_default_variables E name calc_id typ period w :
  invoke E (GetEnergy name calc_id None typ period) w
  = invoke E (GetEnergy name calc_id (Some ["heating"; "cooling"; "lights"]) typ period) w ∧
  ∃ rp,
    issued E (GetEnergy name calc_id (Some []) typ period) w
    = [(mkRequest GET (url (self w) +:+ "/energy")
          (Some {[ "name" := JStr name; "id" := opt_str calc_id;
                   "variables" := JList []; "type" := JStr typ;
                   "period" := JStr period ]}) None, rp)].
Proof.
  split; [reflexivity|]. eexists.
  by apply (issued_decoding E (GetEnergy name calc_id (Some []) typ period) w AsTable).
Qed.

(** X8.  When [parameters] has an entry ['name'], [calculate] and
    [instate] ignore their [name] argument: the entry is what is sent. *)
Theorem parameter_name_overrides E name1 name2 parameters options v w :
  parameters !! "name" = Some v →
  invoke E (Calculate name1 parameters) w = invoke E (Calculate name2 parameters) w ∧
  invoke E (Instate name1 parameters options) w
  = invoke E (Instate name2 parameters options) w ∧
  ∃ payload rp,
    issued E (Calculate name1 parameters) w
    = [(mkRequest GET (url (self w) +:+ "/calculate") (Some payload) None, rp)] ∧
    payload !! "name" = Some v.
Proof.
  intros Hv.
  assert (parameters ∪ {[ "name" := JStr name1 ]}
          = parameters ∪ ({[ "name" := JStr name2 ]} : gmap string json)) as Heq.
  { apply map_eq. intros k. rewrite !lookup_union.
    destruct (decide (k = "name")) as [->|Hk].
    - rewrite Hv, !lookup_singleton_eq. done.
    - by rewrite !lookup_singleton_ne. }
  split; [|split].
  - unfold invoke, body, calculate. cbv zeta. by rewrite Heq.
  - unfold invoke, body, instate. cbv zeta. by rewrite Heq.
  - eexists _, _. split.
    + by apply (issued_decoding E (Calculate name1 parameters) w AsJson).
    + by apply lookup_union_Some_l.
Qed.

Lemma parameter_name_overrides_witness :
  invoke (Demo.env (Demo.always "{}")) (Calculate "s" {[ "name" := JStr "other" ]})
    (Demo.world [])
  = invoke (Demo.env (Demo.always "{}")) (Calculate "t" {[ "name" := JStr "other" ]})
      (Demo.world []).
Proof.
  destruct (parameter_name_overrides (Demo.env (Demo.always "{}")) "s" "t"
              {[ "name" := JStr "other" ]} None (JStr "other") (Demo.world []))
    as [H _]; [reflexivity|exact H].
Defined.


Lemma request_of_verb E u c rq :
  request_of E u c = Some rq →
  req_method rq = verb c ∧ (req_method rq = GET → req_data rq = None).
Proof.
  destruct c; cbn; intros [= <-]; cbn; try done.
  by destruct options.
Qed.

(** X9.  Every request of [setup] is a POST, [instate] posts when
    [options] is given (even an empty one), and every other request,
    that of [cleanup] included, is a GET without a body. *)
Theorem verbs_and_bodies E c w :
  Forall (λ x, req_method x.1 = verb c ∧ (req_method x.1 = GET → req_data x.1 = None))
    (issued E c w).
Proof.
  destruct (method_kinds c) as [[d Hd]|[(name & target & ->)|(name & a & ->)]].
  - destruct (decoding_summary E c w d Hd) as (rq & rp & Hrq & _ & -> & _).
    apply request_of_verb in Hrq. constructor; [done|constructor].
  - pose proof (cleanup_summary E name target w) as (_ & _ & H). cbv zeta in H.
    destruct (stdin w) as [|line rest].
    + destruct H as [-> _]. constructor.
    + destruct (String.eqb line "y").
      * destruct H as (rp & _ & -> & _). constructor; [done|constructor].
      * destruct H as [-> _]. constructor.
  - destruct (setup_requests E name a w) as (done & _ & Hall).
    apply Forall_forall. intros x Hx.
    destruct (proj1 (list_elem_of_lookup _ _) Hx) as [i Hi].
    destruct (Forall2_lookup_r _ _ _ _ _ Hall Hi) as (c' & _ & _ & data & ->). done.
Qed.

(** X10.  Every request of [setup] carries the name of the setup and the
    type of a supplied component and nothing else, except that the
    energy_calculation request also carries ['mode'], which is then
    ['simulation'] or ['steady_state']: no other mode is ever sent. *)
Theorem setup_query E name a w :
  Forall (λ x, ∃ p k,
            req_params x.1 = Some p ∧ k ∈ plan a ∧
            p !! "name" = Some (JStr name) ∧
            p !! "type" = Some (JStr (type_name k)) ∧
            dom p = (if decide (k = EnergyCalculation)
                     then {[ "name"; "type"; "mode" ]} else {[ "name"; "type" ]}) ∧
            (k = EnergyCalculation →
               p !! "mode" = Some (JStr "simulation") ∨
               p !! "mode" = Some (JStr "steady_state")))
    (issued E (Setup name a) w).
Proof.
  destruct (setup_requests E name a w) as (done & Hpre & Hall).
  apply Forall_forall. intros x Hx.
  destruct (proj1 (list_elem_of_lookup _ _) Hx) as [i Hi].
  destruct (Forall2_lookup_r _ _ _ _ _ Hall Hi) as (k & Hk & Hr & data & ->).
  assert (k ∈ plan a) as Hin.
  { destruct Hpre as [rest ->]. apply elem_of_app. left.
    by eapply list_elem_of_lookup_2. }
  exists (setup_params name a k), k. split; [done|]. split; [done|].
  apply list_elem_of_filter in Hin as [Hs _].
  split; [by destruct k|]. split; [by destruct k|]. split.
  - destruct k; cbn; rewrite ?dom_insert_L, ?dom_singleton_L, ?dom_empty_L; set_solver.
  - intros ->. cbn in Hr, Hs |- *. unfold energy_rejected in Hr.
    destruct (a_energy_calculation a) as [s|]; [|done]. rewrite Hs in Hr. cbn in Hr.
    apply negb_false_iff, bool_decide_eq_true in Hr.
    apply elem_of_cons in Hr as [->|Hr]; [by left|].
    apply elem_of_cons in Hr as [->|Hr]; [by right|]. by apply elem_of_nil in Hr.
Qed.

(** [replace_crlf]: what it drops and what it keeps. *)
Lemma replace_crlf_step c c' rest :
  replace_crlf (String c (String c' rest))
  = if decide (c = CR ∧ c' = LF) then String LF (replace_crlf rest)
    else String c (replace_crlf (String c' rest)).
Proof. reflexivity. Qed.

Lemma has_crlf_step c c' rest :
  has_crlf (String c (String c' rest))
  = if decide (c = CR ∧ c' = LF) then true else has_crlf (String c' rest).
Proof. reflexivity. Qed.

Lemma replace_crlf_length s : (String.length (replace_crlf s) ≤ String.length s)%nat.
Proof.
  remember (String.length s) as n eqn:Hn. revert s Hn.
  induction n as [n IH] using lt_wf_ind. intros s ->.
  destruct s as [|c [|c' rest]]; [done..|].
  cbn [replace_crlf]. destruct (decide _).
  - cbn. specialize (IH (String.length rest) ltac:(cbn; lia) rest eq_refl). lia.
  - specialize (IH (String.length (String c' rest)) ltac:(cbn; lia) _ eq_refl).
    cbn in *. lia.
Qed.

Lemma replace_crlf_shorter s :
  has_crlf s = true → (String.length (replace_crlf s) < String.length s)%nat.
Proof.
  remember (String.length s) as n eqn:Hn. revert s Hn.
  induction n as [n IH] using lt_wf_ind. intros s -> Hs.
  destruct s as [|c [|c' rest]]; [done..|].
  cbn [replace_crlf has_crlf] in *. destruct (decide _).
  - cbn. pose proof (replace_crlf_length rest). lia.
  - specialize (IH (String.length (String c' rest)) ltac:(cbn; lia) _ eq_refl Hs).
    cbn in *. lia.
Qed.

Lemma replace_crlf_id s : has_crlf s = false → replace_crlf s = s.
Proof.
  remember (String.length s) as n eqn:Hn. revert s Hn.
  induction n as [n IH] using lt_wf_ind. intros s -> Hs.
  destruct s as [|c [|c' rest]]; [done..|].
  rewrite replace_crlf_step. rewrite has_crlf_step in Hs.
  destruct (decide _); [done|].
  f_equal. by apply (IH (String.length (String c' rest)) ltac:(cbn; lia)).
Qed.

Lemma replace_crlf_count c s :
  c ≠ CR → count_char c (replace_crlf s) = count_char c s.
Proof.
  intros Hc. remember (String.length s) as n eqn:Hn. revert s Hn.
  induction n as [n IH] using lt_wf_ind. intros s ->.
  destruct s as [|c1 [|c2 rest]]; [done..|].
  rewrite replace_crlf_step. destruct (decide _) as [[-> ->]|Hne].
  - cbn [count_char]. rewrite (IH (String.length rest) ltac:(cbn; lia) rest eq_refl).
    destruct (decide (CR = c)); [congruence|]. done.
  - change (count_char c (String c1 (replace_crlf (String c2 rest))))
      with ((if decide (c1 = c) then 1 else 0)
            + count_char c (replace_crlf (String c2 rest)))%nat.
    rewrite (IH (String.length (String c2 rest)) ltac:(cbn; lia) _ eq_refl). done.
Qed.

Lemma epw_first_request E url name a p t success h r xs :
  a_epw a = Some p → read_text E p = inr t →
  run E url name a component_order success h r xs →
  ∃ rp rest,
    xs = (setup_request url name a Epw (Some (PStr (replace_crlf t))), rp) :: rest.
Proof.
  intros Hp Ht Hrun. unfold component_order in Hrun.
  assert (payload E a Epw = inr (Some (PStr (replace_crlf t)))) as Hpay
    by (cbn; by rewrite Hp, Ht).
  assert (supplied a Epw = true) as Hs
    by (cbn; rewrite Hp; by apply bool_decide_eq_true_2).
  inversion Hrun; subst; try congruence; try discriminate;
    match goal with H : payload E a Epw = inr ?d |- _ =>
      rewrite Hpay in H; injection H as <- end; eauto.
Qed.

(** X11.  When the epw file is supplied and readable, the first request of
    [setup] is the epw upload, whose body is the text of the file with each
    carriage return and line feed pair replaced by a line feed: only
    carriage returns are dropped, the text is never longer, and it is
    unchanged exactly when it holds no such pair. *)
Theorem epw_upload_body E name a w p t :
  a_epw a = Some p → read_text E p = inr t →
  ∃ body rp rest,
    issued E (Setup name a) w
    = (mkRequest POST (url (self w) +:+ "/setup")
         (Some {[ "name" := JStr name; "type" := JStr "epw" ]}) (Some (PStr body)), rp)
      :: rest ∧
    body = replace_crlf t ∧
    (∀ c, c ≠ CR → count_char c body = count_char c t) ∧
    (String.length body ≤ String.length t)%nat ∧
    (body = t ↔ has_crlf t = false).
Proof.
  intros Hp Ht.
  destruct (setup_summary E name a w) as (r & Hrun & _).
  destruct (epw_first_request _ _ _ _ _ _ _ _ _ _ Hp Ht Hrun) as (rp & rest & Hx).
  exists (replace_crlf t), rp, rest. split; [done|]. split; [done|].
  split; [intros c Hc; by apply replace_crlf_count|].
  split; [apply replace_crlf_length|]. split; [|apply replace_crlf_id].
  intros Heq. destruct (has_crlf t) eqn:Hcr; [|done].
  apply replace_crlf_shorter in Hcr. rewrite Heq in Hcr. lia.
Qed.

Lemma epw_upload_body_witness :
  ∃ rp rest,
    issued (Demo.env (Demo.always "OK")) (Setup "s" Demo.epw_and_simulation) (Demo.world [])
    = (mkRequest POST "http://localhost:5000/setup"
         (Some {[ "name" := JStr "s"; "type" := JStr "epw" ]})
         (Some (PStr ("LOCATION" +:+ String LF ""))), rp) :: rest.
Proof.
  destruct (epw_upload_body (Demo.env (Demo.always "OK")) "s" Demo.epw_and_simulation
              (Demo.world []) "weather.epw" ("LOCATION" +:+ String CR (String LF ""))
              eq_refl eq_refl) as (body & rp & rest & Hx & -> & _).
  by exists rp, rest.
Defined.


Lemma success_key_inj k1 k2 : success_key k1 = success_key k2 → k1 = k2.
Proof. by destruct k1, k2. Qed.

Lemma record_success_other (cxs : list (component * (Request * reply))) :
  ∀ (success : gmap string string) key,
    key ∉ (success_key <$> cxs.*1) →
    foldl record_success success cxs !! key = success !! key.
Proof.
  induction cxs as [|[k x] cxs IH]; intros success key Hkey; [done|].
  cbn in *. apply not_elem_of_cons in Hkey as [Hne Hkey].
  rewrite IH by done. unfold record_success. cbn. by rewrite lookup_insert_ne.
Qed.

Lemma record_success_lookup (cxs : list (component * (Request * reply))) :
  ∀ (success : gmap string string) i k x,
    NoDup cxs.*1 → cxs !! i = Some (k, x) →
    foldl record_success success cxs !! success_key k = Some (reply_text x.2).
Proof.
  induction cxs as [|[k0 x0] cxs IH]; intros success i k x Hnd Hi; [done|].
  cbn in Hnd. apply NoDup_cons in Hnd as [Hk0 Hnd]. destruct i as [|i].
  - injection Hi as -> ->. cbn. rewrite record_success_other.
    + unfold record_success. cbn. apply lookup_insert_eq.
    + intros Hin. apply list_elem_of_fmap in Hin as (k' & Heq & Hin).
      apply success_key_inj in Heq as <-. done.
  - cbn. by eapply IH.
Qed.

Lemma record_success_dom (cxs : list (component * (Request * reply))) :
  ∀ success : gmap string string,
    dom (foldl record_success success cxs)
    = dom success ∪ list_to_set (success_key <$> cxs.*1).
Proof.
  induction cxs as [|[k x] cxs IH]; intros success; cbn.
  - by rewrite (right_id_L ∅ (∪)).
  - rewrite IH. unfold record_success. cbn.
    by rewrite dom_insert_L, (comm_L (∪) {[success_key k]}), <- (assoc_L (∪)).
Qed.

(** X12.  When [setup] returns after every request was accepted (the
    energy type being acceptable), the dict it prints has exactly the keys
    of the supplied components (['epw'], ['weather'], ['idf'], ['model'],
    ['parameters'], ['LCA Calculation'], ['Cost Calculation'],
    ['Database'], ['Energy Calculation']) and maps each to the text of the
    answer to that component's request. *)
Theorem setup_success_dict E name a w v :
  energy_rejected a = false →
  Forall (λ x, ok_reply x.2 = true) (issued E (Setup name a) w) →
  (invoke E (Setup name a) w).1 = Returned v →
  ∃ success : gmap string string,
    v = PStr (String LF "" +:+ pformat E success) ∧
    dom success = list_to_set (success_key <$> plan a) ∧
    length (issued E (Setup name a) w) = length (plan a) ∧
    ∀ i k x, plan a !! i = Some k → issued E (Setup name a) w !! i = Some x →
      ∃ r, x.2 = inr r ∧ success !! success_key k = Some (text r).
Proof.
  intros Hen Hall Hv.
  destruct (setup_summary E name a w) as (r & Hrun & Hres & _).
  pose proof (run_all_accepted _ _ _ _ _ _ _ _ _ Hrun Hall) as H.
  rewrite Hres in Hv. destruct r as [success|v'|e]; cbn [finish] in Hv; [|exfalso|done].
  2:{ destruct H as (_ & cs1 & k & cs2 & _ & _ & Hr & _).
      apply rejected_energy in Hr as [_ Hr]. congruence. }
  injection Hv as <-. destruct H as [Hreq ->]. fold (plan a) in Hreq |- *.
  pose proof (Forall2_length _ _ _ Hreq) as Hlen.
  eexists. split; [done|]. split; [|split; [done|]].
  - by rewrite record_success_dom, dom_empty_L, fst_zip, (left_id_L ∅ (∪)) by lia.
  - intros i k x Hk Hx.
    pose proof (proj1 (Forall_lookup _ _) Hall i x Hx) as Hok.
    destruct x as [rq [e|r]]; [done|]. exists r. split; [done|].
    erewrite (record_success_lookup _ _ i k (rq, inr r)); [done| |].
    + rewrite fst_zip by lia. apply plan_nodup.
    + apply lookup_zip_with_Some. eauto.
Qed.

Lemma setup_success_dict_witness :
  let E := Demo.env (Demo.always "OK") in
  let c := Setup "s" Demo.epw_and_simulation in
  ∃ success : gmap string string,
    (invoke E c (Demo.world [])).1 = Returned (PStr (String LF "" +:+ pformat E success)) ∧
    dom success = {[ "epw"; "Database"; "Energy Calculation" ]}.
Proof.
  intros E c.
  edestruct (setup_success_dict E "s" Demo.epw_and_simulation (Demo.world []))
    as (success & Hv & Hdom & _).
  - reflexivity.
  - vm_compute. repeat constructor.
  - vm_compute. reflexivity.
  - exists success. split.
    + rewrite <- Hv. vm_compute. reflexivity.
    + rewrite Hdom. compute_done.
Defined.

(** X6.  An empty [energy_calculation] string counts as none: [setup]
    behaves as without the argument, the energy block is not in the plan
    and no energy_calculation request is sent. *)
Theorem setup_falsy_energy E name a w :
  a_energy_calculation a = None ∨ a_energy_calculation a = Some "" →
  invoke E (Setup name a) w = invoke E (Setup name (with_energy a None)) w ∧
  (EnergyCalculation ∉ plan a) ∧
  Forall (λ x, req_params x.1 ≫= (.!! "type") ≠ Some (JStr "energy_calculation"))
    (issued E (Setup name a) w).
Proof.
  intros Hen. split; [|split].
  - destruct a as [epw wd idf model params lca cost energy init_db].
    cbn in Hen. by destruct Hen as [->| ->].
  - unfold plan. rewrite list_elem_of_filter. intros [Hs _]. cbn in Hs.
    by destruct Hen as [Hen|Hen]; rewrite Hen in Hs.
  - destruct (setup_requests E name a w) as (done & Hpre & Hall).
    apply Forall_forall. intros x Hx.
    destruct (proj1 (list_elem_of_lookup _ _) Hx) as [i Hi].
    destruct (Forall2_lookup_r _ _ _ _ _ Hall Hi) as (k & Hk & _ & data & ->).
    cbn. rewrite setup_params_type. intros [= Ht].
    apply (type_name_inj k EnergyCalculation) in Ht as ->.
    assert (EnergyCalculation ∈ plan a) as Hin.
    { destruct Hpre as [rest ->]. apply elem_of_app. left.
      by eapply list_elem_of_lookup_2. }
    unfold plan in Hin. apply list_elem_of_filter in Hin as [Hs _]. cbn in Hs.
    by destruct Hen as [Hen|Hen]; rewrite Hen in Hs.
Qed.

Lemma setup_falsy_energy_witness :
  let a := mkSetupArgs None None None None None None None (Some "") true in
  invoke (Demo.env (Demo.always "OK")) (Setup "s" a) (Demo.world [])
  = invoke (Demo.env (Demo.always "OK")) (Setup "s" (with_energy a None)) (Demo.world []).
Proof.
  intros a.
  apply (setup_falsy_energy (Demo.env (Demo.always "OK")) "s" a (Demo.world [])).
  by right.
Defined.
